(** * fixed_income.data: the cashflow matrix builder and the price-tick parser

    A shallow embedding of [cashflows_matrix] and [to_decimal_price] of
    [src/fixed_income/data.py], with the Python, NumPy and pandas
    operations they call.

    Conventions of the model.
    - A Python [int] is a [Z].
    - A Python float of the parser is an IEEE 754 binary64 number: a
      [spec_float] of the Standard Library, with precision 53 and exponent
      bound 1024, every operation rounded to nearest, ties to even. The
      conversion of an [int] beyond the range of the floats raises
      OverflowError, as in CPython.
    - The entries of the NumPy arrays of the builder, and the [MATURITY]
      and [COUPON] columns it reads, are rationals [Q]: the arithmetic of
      the builder is modelled without rounding (the one NaN the code can
      meet, the maximum of an empty column, is the [None] of
      [series_max]).
    - A raised exception is the [Err] of [result]; every function that can
      raise returns a [result], and [x <- e ; k] propagates the exception,
      so that a failed call yields no value at all.
    - A [str] is a [string] whose characters are code points below 256.
    - A NumPy 2-D array is a list of rows; a pandas frame is the list of
      its (index label, row) pairs in [iterrows] order.
    - [assert] statements are executed (Python run without [-O]). *)

From Stdlib Require Import ZArith QArith Qround Qpower List String Ascii Bool Lia Lqa.
From Stdlib Require Import DecimalString DecimalN DecimalPos Permutation SpecFloat.
Import ListNotations.

Local Open Scope Z_scope.

(** ** Python: exceptions, [int()], [str.split], indexing *)

Module Py.

Inductive exn : Type :=
| ValueError
| IndexError
| KeyError
| AssertionError
| OverflowError
| ZeroDivisionError.

Inductive result (A : Type) : Type :=
| Ok (a : A)
| Err (e : exn).

Arguments Ok {A} a.
Arguments Err {A} e.

Definition bind {A B : Type} (r : result A) (k : A -> result B) : result B :=
  match r with
  | Ok a => k a
  | Err e => Err e
  end.

Definition raises {A : Type} (r : result A) : Prop :=
  exists e, r = Err e.

Definition py_assert (b : bool) : result unit :=
  if b then Ok tt else Err AssertionError.

(** [l[i]] for a list and a non-negative literal index. *)
Definition list_get {A : Type} (l : list A) (i : nat) : result A :=
  match nth_error l i with
  | Some a => Ok a
  | None => Err IndexError
  end.

(** [s[i]] for a string and a non-negative literal index. *)
Definition str_get (s : string) (i : nat) : result ascii :=
  match String.get i s with
  | Some c => Ok c
  | None => Err IndexError
  end.

(** [s[:k]]: a slice never raises, it is cut at the end of the string. *)
Definition slice_to (k : nat) (s : string) : string := substring 0 k s.

(** [s.split(sep)] for a one-character separator: the parts between the
    separators, so one part more than there are separators. *)
Fixpoint split (sep : ascii) (s : string) : list string :=
  match s with
  | EmptyString => [EmptyString]
  | String c s' =>
      if Ascii.eqb c sep then EmptyString :: split sep s'
      else match split sep s' with
           | p :: ps => String c p :: ps
           | [] => [String c EmptyString]
           end
  end.

(** The characters [int()] skips around a literal: tab, LF, VT, FF, CR,
    space, and among the code points 128..255 NEL and NBSP. *)
Definition is_space (c : ascii) : bool :=
  let n := N_of_ascii c in
  (((9 <=? n) && (n <=? 13)) || (n =? 32) || (n =? 133) || (n =? 160))%N.

Definition digit_of (c : ascii) : option Z :=
  let n := N_of_ascii c in
  if ((48 <=? n) && (n <=? 57))%N then Some (Z.of_N (n - 48)) else None.

Fixpoint lstrip (s : string) : string :=
  match s with
  | String c s' => if is_space c then lstrip s' else s
  | EmptyString => s
  end.

Fixpoint all_space (s : string) : bool :=
  match s with
  | String c s' => is_space c && all_space s'
  | EmptyString => true
  end.

(** What may follow a digit of the literal: a digit, one underscore and a
    digit, or whitespace up to the end. [acc] is the value read so far. *)
Fixpoint digits_tail (acc : Z) (s : string) : option Z :=
  match s with
  | EmptyString => Some acc
  | String c s' =>
      match digit_of c with
      | Some d => digits_tail (10 * acc + d) s'
      | None =>
          if Ascii.eqb c "_" then
            match s' with
            | String c' s'' =>
                match digit_of c' with
                | Some d => digits_tail (10 * acc + d) s''
                | None => None
                end
            | EmptyString => None
            end
          else if all_space s then Some acc else None
      end
  end.

(** [int(s)] in base 10: whitespace, an optional sign, digits with single
    underscores between them, whitespace. Anything else is a ValueError. *)
Definition py_int (s : string) : result Z :=
  let s1 := lstrip s in
  let '(sign, s2) :=
    match s1 with
    | String "+" r => (1, r)
    | String "-" r => (-1, r)
    | _ => (1, s1)
    end in
  match s2 with
  | String c r =>
      match digit_of c with
      | Some d =>
          match digits_tail d r with
          | Some v => Ok (sign * v)
          | None => Err ValueError
          end
      | None => Err ValueError
      end
  | EmptyString => Err ValueError
  end.

(** [d[k]] and [k in d.keys()] for a dict kept as an association list. *)
Fixpoint dict_get {V : Type} (d : list (Z * V)) (k : Z) : result V :=
  match d with
  | [] => Err KeyError
  | (k', v) :: d' => if k =? k' then Ok v else dict_get d' k
  end.

Definition dict_has {V : Type} (d : list (Z * V)) (k : Z) : bool :=
  existsb (fun kv => k =? fst kv) d.

End Py.

Import Py.

Notation "x <- e ; k" := (bind e (fun x => k))
  (at level 61, e at next level, right associativity).
Notation "e ;; k" := (bind e (fun _ => k))
  (at level 61, right associativity).

(** ** Python floats: IEEE 754 binary64 *)

Module Float.

Definition prec : Z := 53.
Definition emax : Z := 1024.

Definition float : Type := spec_float.

(** The float nearest to [m * 2^e]; a literal such as [0.25], whose value
    is a dyadic number, is [of_dyadic 1 (-2)]. *)
Definition of_dyadic (m e : Z) : float := binary_normalize prec emax m e false.

(** The conversion of an int, and the division of two ints, raise
    OverflowError where the rounded result would be infinite. *)
Definition checked (f : float) : result float :=
  match f with
  | S754_infinity _ => Err OverflowError
  | _ => Ok f
  end.

(** [float(z)], also the conversion of the int operand of a float
    operation. *)
Definition float_of_int (z : Z) : result float := checked (of_dyadic z 0).

(** [a / b] for two ints: the quotient, rounded once. *)
Definition int_truediv (a b : Z) : result float :=
  if (b =? 0)%Z then Err ZeroDivisionError
  else if (a =? 0)%Z then Ok (S754_zero (b <? 0)%Z)
  else
    let '(m, e, l) := SFdiv_core_binary prec emax (Z.abs a) 0 (Z.abs b) 0 in
    checked (binary_round_aux prec emax (xorb (a <? 0)%Z (b <? 0)%Z) m e l).

(** [x / y] for two floats, [y] not zero. *)
Definition float_div (x y : float) : float := SFdiv prec emax x y.

(** [x + y] for two floats. *)
Definition float_add (x y : float) : float := SFadd prec emax x y.

(** [z + x] for an int and a float: the int is converted first. *)
Definition int_add_float (z : Z) (x : float) : result float :=
  y <- float_of_int z ;
  Ok (float_add y x).

End Float.

Import Float.

(** ** The price-tick parser *)

(** [partial_tick_value = {0: 0.0, 2: 0.25 / 32, 5: 0.5 / 32, 7: 0.75 / 32}];
    the divisor 32 is converted to the float 32.0. *)
Definition partial_tick_value : list (Z * float) :=
  [ (0%Z, of_dyadic 0 0);
    (2%Z, float_div (of_dyadic 1 (-2)) (of_dyadic 32 0));
    (5%Z, float_div (of_dyadic 1 (-1)) (of_dyadic 32 0));
    (7%Z, float_div (of_dyadic 3 (-2)) (of_dyadic 32 0)) ].

(** The value returned is [handles + ticks / 32 +
    partial_tick_value[partial_ticks]]: the quotient of the two ints, the
    sum of the int [handles] and that float, the value of the table, and
    the sum of the two floats, in this order. *)
Definition to_decimal_price (price_in_32s : string) : result float :=
  let handles_and_fraction := split "'" price_in_32s in
  p0 <- list_get handles_and_fraction 0 ;
  handles <- py_int p0 ;
  p1 <- list_get handles_and_fraction 1 ;
  ticks <- py_int (slice_to 2 p1) ;
  py_assert (ticks <? 32)%Z ;;
  partial_ticks <-
    (if (2 <? String.length p1)%nat
     then c <- str_get p1 2 ; py_int (String c EmptyString)
     else Ok 0%Z) ;
  py_assert (dict_has partial_tick_value partial_ticks) ;;
  q <- int_truediv ticks 32 ;
  s <- int_add_float handles q ;
  v <- dict_get partial_tick_value partial_ticks ;
  Ok (float_add s v).

(** ** NumPy: the array operations of the builder *)

Local Open Scope Q_scope.

Module Np.

Definition matrix : Type := list (list Q).

(** [np.zeros((n, m))]: a negative dimension is a ValueError. *)
Definition zeros (n : nat) (m : Z) : result matrix :=
  if (m <? 0)%Z then Err ValueError
  else Ok (repeat (repeat 0 (Z.to_nat m)) n).

(** [np.ones((1, m))], kept flat: [cumsum] without an axis flattens it. *)
Definition ones (m : Z) : result (list Q) :=
  if (m <? 0)%Z then Err ValueError else Ok (repeat 1 (Z.to_nat m)).

Fixpoint cumsum_from (acc : Q) (l : list Q) : list Q :=
  match l with
  | [] => []
  | x :: l' => (acc + x) :: cumsum_from (acc + x) l'
  end.

Definition cumsum (l : list Q) : list Q :=
  match l with
  | [] => []
  | x :: l' => x :: cumsum_from x l'
  end.

(** An integer index on an axis of length [len]: [-len .. -1] count from
    the end, anything outside [-len .. len-1] is an IndexError. *)
Definition norm_index (i : Z) (len : nat) : result nat :=
  let n := Z.of_nat len in
  if ((0 <=? i) && (i <? n))%Z then Ok (Z.to_nat i)
  else if ((- n <=? i) && (i <? 0))%Z then Ok (Z.to_nat (i + n))
  else Err IndexError.

(** The end of the slice [:k] on an axis of length [len]: slices are
    clipped, they never raise. *)
Definition slice_stop (k : Z) (len : nat) : nat :=
  let n := Z.of_nat len in
  if (k <? 0)%Z then Z.to_nat (Z.max 0 (n + k)) else Z.to_nat (Z.min k n).

Fixpoint update {A : Type} (l : list A) (k : nat) (f : A -> A) : list A :=
  match l, k with
  | [], _ => []
  | x :: l', O => f x :: l'
  | x :: l', S k' => x :: update l' k' f
  end.

Definition ncols (a : matrix) (r : nat) : nat := List.length (nth r a []).

(** [a[r, c] = v] *)
Definition set_item (a : matrix) (r c : Z) (v : Q) : result matrix :=
  r' <- norm_index r (List.length a) ;
  c' <- norm_index c (ncols a r') ;
  Ok (update a r' (fun row => update row c' (fun _ => v))).

(** [a[r, c] += v] *)
Definition add_item (a : matrix) (r c : Z) (v : Q) : result matrix :=
  r' <- norm_index r (List.length a) ;
  c' <- norm_index c (ncols a r') ;
  Ok (update a r' (fun row => update row c' (fun x => x + v))).

(** [a[r, :k] = v] for a scalar [v] *)
Definition fill_slice (a : matrix) (r k : Z) (v : Q) : result matrix :=
  r' <- norm_index r (List.length a) ;
  let s := slice_stop k (ncols a r') in
  Ok (update a r' (fun row => repeat v s ++ skipn s row)).

(** [a[r, :k] = vals] for a 1-D array [vals]: its length is that of the
    slice, or 1 (broadcast); any other length is a ValueError. *)
Definition set_slice (a : matrix) (r k : Z) (vals : list Q) : result matrix :=
  r' <- norm_index r (List.length a) ;
  let s := slice_stop k (ncols a r') in
  if (List.length vals =? s)%nat then
    Ok (update a r' (fun row => vals ++ skipn s row))
  else if (List.length vals =? 1)%nat then
    Ok (update a r' (fun row => repeat (hd 0 vals) s ++ skipn s row))
  else Err ValueError.

(** [int(np.ceil(x))]; [None] is NaN, which [int] refuses. *)
Definition int_ceil (x : option Q) : result Z :=
  match x with
  | Some q => Ok (Qceiling q)
  | None => Err ValueError
  end.

End Np.

Import Np.

(** ** pandas: the frame the builder reads *)

(** The columns of a row that [cashflows_matrix] reads. [MATURITY_DATE]
    is a timestamp in nanoseconds, [MATURITY] the time to maturity in
    years, [COUPON] the annual coupon rate in percent. *)
Record Row : Type := mkRow {
  MATURITY_DATE : Z;
  MATURITY : Q;
  COUPON : Q
}.

(** A frame: its rows with their index labels, in [iterrows] order. *)
Definition DataFrame : Type := list (Z * Row).

Definition Qmax (a b : Q) : Q := if Qle_bool a b then b else a.

(** [Series.max()]: NaN, here [None], for an empty column. *)
Definition series_max (l : list Q) : option Q :=
  match l with
  | [] => None
  | x :: l' => Some (fold_left Qmax l' x)
  end.

(** [np.timedelta64(1, "Y")] and [np.timedelta64(6, "M")] in nanoseconds:
    a year is 31556952 seconds and a month a twelfth of it. *)
Definition ONE_YEAR : Z := 31556952 * 10 ^ 9.
Definition SIX_MONTHS : Z := 6 * 2629746 * 10 ^ 9.

(** ** The cashflow matrix builder *)

Definition max_semi_periods (treasury_direct_df : DataFrame) (quote_date : Z)
  : result Z :=
  int_ceil
    (series_max
       (map (fun lr => inject_Z (MATURITY_DATE (snd lr) - quote_date)
                       / inject_Z SIX_MONTHS)
            treasury_direct_df)).

Definition semi_periods (row : Row) : Z := Qceiling (MATURITY row / (1 # 2)).

(** One turn of the [for i, row in treasury_direct_df.iterrows()] loop on
    the two arrays. *)
Definition loop_body (st : matrix * matrix) (i : Z) (row : Row)
  : result (matrix * matrix) :=
  let '(maturities, cashflows) := st in
  if (semi_periods row =? 0)%Z then
    maturities <- set_item maturities (i - 1) 0 (MATURITY row) ;
    cashflows <- set_item cashflows (i - 1) 0 100 ;
    Ok (maturities, cashflows)
  else
    maturities <-
      set_item maturities (i - 1) (semi_periods row - 1) (MATURITY row) ;
    halves <- ones (semi_periods row - 1) ;
    let times :=
      map (fun x => MATURITY row - x)
          (rev (cumsum (map (Qmult (1 # 2)) halves))) in
    maturities <- set_slice maturities (i - 1) (semi_periods row - 1) times ;
    let semi_coupon := COUPON row / 2 in
    cashflows <- fill_slice cashflows (i - 1) (semi_periods row) semi_coupon ;
    cashflows <- add_item cashflows (i - 1) (semi_periods row - 1) 100 ;
    Ok (maturities, cashflows).

Fixpoint iterrows (df : DataFrame) (st : matrix * matrix)
  : result (matrix * matrix) :=
  match df with
  | [] => Ok st
  | (i, row) :: df' => st' <- loop_body st i row ; iterrows df' st'
  end.

(** [cashflows] starts as a copy of the zero array [maturities]; the call
    returns [(cashflows, maturities)]. *)
Definition cashflows_matrix (treasury_direct_df : DataFrame) (quote_date : Z)
  : result (matrix * matrix) :=
  n <- max_semi_periods treasury_direct_df quote_date ;
  maturities <- zeros (List.length treasury_direct_df) n ;
  let cashflows := maturities in
  st <- iterrows treasury_direct_df (maturities, cashflows) ;
  Ok (snd st, fst st).

(** ** Specification-side notions *)

(** The number a float stands for; an infinity and a NaN stand for none. *)
Definition float_value (f : float) : option Q :=
  match f with
  | S754_zero _ => Some 0
  | S754_finite s m e => Some (inject_Z (cond_Zopp s (Z.pos m)) * 2 ^ e)
  | _ => None
  end.

(** The call returns a float, and the float is the number [q]. *)
Definition returns (r : result float) (q : Q) : Prop :=
  match r with
  | Ok f =>
      match float_value f with
      | Some v => v == q
      | None => False
      end
  | Err _ => False
  end.

(** Equality of arrays, entry by entry. *)
Definition Meq (a b : matrix) : Prop := Forall2 (Forall2 Qeq) a b.

Definition has_shape (a : matrix) (n m : nat) : Prop :=
  List.length a = n /\ Forall (fun row => List.length row = m) a.

Fixpoint Qsum (l : list Q) : Q :=
  match l with
  | [] => 0
  | x :: l' => x + Qsum l'
  end.

(** The string has no ['] in it. *)
Fixpoint sep_free (s : string) : bool :=
  match s with
  | EmptyString => true
  | String c s' => negb (Ascii.eqb c "'") && sep_free s'
  end.

(** The two tick digits of a tick count below 100. *)
Definition digit_char (d : Z) : ascii := ascii_of_N (48 + Z.to_N d).

Definition two_digits (ticks : Z) : string :=
  String (digit_char (ticks / 10)) (String (digit_char (ticks mod 10)) EmptyString).

(** The fraction codes of a quote and the part of a 32nd each stands for,
    as the specification lists them: 0, 2, 5, 7 for 0, 1/4, 1/2, 3/4. *)
Inductive frac_code : Type := F0 | F2 | F5 | F7.

Definition frac_digit (f : frac_code) : ascii :=
  match f with F0 => "0" | F2 => "2" | F5 => "5" | F7 => "7" end%char.

Definition frac_value (f : option frac_code) : Q :=
  match f with
  | None | Some F0 => 0
  | Some F2 => 1 # 4
  | Some F5 => 1 # 2
  | Some F7 => 3 # 4
  end.

Definition frac_string (f : option frac_code) : string :=
  match f with
  | None => EmptyString
  | Some c => String (frac_digit c) EmptyString
  end.

(** The token [handle'ticks[frac]] for a handle written with the decimal
    digits [handle]. *)
Definition quote_token (handle : Decimal.uint) (ticks : Z)
  (f : option frac_code) : string :=
  (NilEmpty.string_of_uint handle
   ++ String "'" (two_digits ticks ++ frac_string f))%string.

(** ** Definitions used by the proofs *)

(** What [to_decimal_price] reads from the part after the separator: the
    ticks and the key of the partial tick, both checked. *)
Definition ticks_and_partial (p1 : string) : result (Z * Z) :=
  ticks <- py_int (slice_to 2 p1) ;
  py_assert (ticks <? 32)%Z ;;
  partial_ticks <-
    (if (2 <? String.length p1)%nat
     then c <- str_get p1 2 ; py_int (String c EmptyString)
     else Ok 0%Z) ;
  py_assert (dict_has partial_tick_value partial_ticks) ;;
  Ok (ticks, partial_ticks).

(** The arithmetic of the last line of [to_decimal_price]. *)
Definition price (handles ticks partial_ticks : Z) : result float :=
  q <- int_truediv ticks 32 ;
  s <- int_add_float handles q ;
  v <- dict_get partial_tick_value partial_ticks ;
  Ok (float_add s v).

(** The float nearest to [k / 128]: the prices of the well-formed tokens
    are whole numbers of 128ths. *)
Definition grid (k : Z) : float := of_dyadic k (-7).

(** The mantissa of the float [k / 128], for [k] of at most 53 bits. *)
Definition grid_mantissa (k : positive) : positive :=
  Z.to_pos (Z.pos k * 2 ^ (53 - Z.pos (digits2_pos k))).

(** The key of [partial_tick_value] a fraction code is read as, and the
    128ths it stands for. *)
Definition frac_key (f : option frac_code) : Z :=
  match f with
  | None | Some F0 => 0
  | Some F2 => 2
  | Some F5 => 5
  | Some F7 => 7
  end.

Definition frac_units (f : option frac_code) : Z :=
  match f with
  | None | Some F0 => 0
  | Some F2 => 1
  | Some F5 => 2
  | Some F7 => 3
  end.

(** The row of the arrays that the loop writes for the index label [i]
    when there are [n] rows: [i - 1], counted from the end when negative. *)
Definition row_of (n : nat) (i : Z) : nat := Z.to_nat ((i - 1) mod Z.of_nat n).

Definition rows_of (n : nat) (df : DataFrame) : list nat :=
  map (fun lr => row_of n (fst lr)) df.

(** The times of the coupons before the last, as the loop computes them. *)
Definition times (s : Row) : list Q :=
  map (fun x => MATURITY s - x)
      (rev (cumsum (map (Qmult (1 # 2))
                        (repeat 1 (Z.to_nat (semi_periods s - 1)))))).

(** What a turn of the loop that raises nothing has written in the row of
    the maturity array it addresses. *)
Definition time_row (s : Row) (row : list Q) : list Q :=
  if (semi_periods s =? 0)%Z then update row 0 (fun _ => MATURITY s)
  else times s
       ++ skipn (Z.to_nat (semi_periods s - 1))
            (update row (Z.to_nat (semi_periods s - 1)) (fun _ => MATURITY s)).

(** What a turn of the loop that raises nothing has written in the row of
    the cashflow array it addresses. *)
Definition cash_row (s : Row) (row : list Q) : list Q :=
  if (semi_periods s =? 0)%Z then update row 0 (fun _ => 100)
  else update (repeat (COUPON s / 2) (Z.to_nat (semi_periods s))
               ++ skipn (Z.to_nat (semi_periods s)) row)
              (Z.to_nat (semi_periods s - 1)) (fun x => x + 100).

(** ** The scenario data *)


(** The quote date, 2017-09-15, and the two securities of the scenario:
    A matures in a year and pays 4 percent, B matures in a quarter of a
    year and pays no coupon. *)
Definition quote_2017 : Z := 1505433600 * 10 ^ 9.
Definition security_A : Row := mkRow (quote_2017 + ONE_YEAR) 1 4.
Definition security_B : Row := mkRow (quote_2017 + ONE_YEAR / 4) (1 # 4) 0.

(** The batch with the labels of a default index, 0 and 1, as
    [treasury_direct_prices] returns its frame, and with the labels 1, 2. *)
Definition batch_default_index : DataFrame := [(0%Z, security_A); (1%Z, security_B)].
Definition batch_from_one : DataFrame := [(1%Z, security_A); (2%Z, security_B)].

(** B a quarter of a year after its maturity. *)
Definition security_matured : Row :=
  mkRow (quote_2017 - ONE_YEAR / 4) (- (1 # 4)) 0.

(** A security that matures on the quote date. *)
Definition security_due : Row := mkRow quote_2017 0 3.



(** ** Frames for the further properties *)

(** The rows under the default index 0, 1, ... and under the index
    1, 2, ... *)
Definition with_default_index (rows : list Row) : DataFrame :=
  combine (map Z.of_nat (seq 0 (List.length rows))) rows.

Definition with_index_from_one (rows : list Row) : DataFrame :=
  combine (map Z.of_nat (seq 1 (List.length rows))) rows.

Local Open Scope string_scope.

(** ** [str.split] *)

Lemma split_nonempty sep s : split sep s <> [].
Proof.
  destruct s as [|c s]; simpl; [discriminate|].
  destruct (Ascii.eqb c sep); [discriminate|].
  destruct (split sep s); discriminate.
Qed.

Lemma split_sep_free s : sep_free s = true -> split "'" s = [s].
Proof.
  induction s as [|c s IH]; simpl; intros H; [reflexivity|].
  apply andb_prop in H. destruct H as [Hc Hs].
  apply negb_true_iff in Hc. rewrite Hc, (IH Hs). reflexivity.
Qed.

Lemma split_app h t :
  sep_free h = true -> split "'" (h ++ String "'" t) = h :: split "'" t.
Proof.
  induction h as [|c h IH]; simpl; intros H; [reflexivity|].
  apply andb_prop in H. destruct H as [Hc Hs].
  apply negb_true_iff in Hc. rewrite Hc, (IH Hs). reflexivity.
Qed.

Lemma split_one_sep h t :
  sep_free h = true -> sep_free t = true ->
  split "'" (h ++ String "'" t) = [h; t].
Proof.
  intros Hh Ht. rewrite (split_app _ _ Hh), (split_sep_free _ Ht). reflexivity.
Qed.

(** ** [int()] on a string of decimal digits *)

Lemma digits_tail_digit acc c s d :
  digit_of c = Some d -> digits_tail acc (String c s) = digits_tail (10 * acc + d) s.
Proof. intros H. cbn [digits_tail]. rewrite H. reflexivity. Qed.

Ltac read_digit :=
  match goal with
  | |- digits_tail _ (String ?c _) = _ =>
      let d := eval vm_compute in (digit_of c) in
      match d with
      | Some ?k => rewrite (digits_tail_digit _ c _ k eq_refl)
      end
  end.

Lemma digits_tail_pos d (p : positive) :
  digits_tail (Z.pos p) (NilEmpty.string_of_uint d)
  = Some (Z.pos (Pos.of_uint_acc d p)).
Proof.
  revert p.
  induction d; intros p; cbn [NilEmpty.string_of_uint Pos.of_uint_acc];
    [reflexivity | ..];
    (read_digit;
     match goal with
     | |- digits_tail ?z _ = Some (Z.pos (Pos.of_uint_acc _ ?q)) =>
         replace z with (Z.pos q) by lia
     end;
     apply IHd).
Qed.

Lemma digits_tail_zero d :
  digits_tail 0 (NilEmpty.string_of_uint d) = Some (Z.of_N (Pos.of_uint d)).
Proof.
  induction d; cbn [NilEmpty.string_of_uint Pos.of_uint];
    [reflexivity | ..];
    read_digit; first [ exact IHd | apply (digits_tail_pos d) ].
Qed.

Lemma py_int_uint d :
  d <> Decimal.Nil ->
  py_int (NilEmpty.string_of_uint d) = Ok (Z.of_N (N.of_uint d)).
Proof.
  intros Hd. unfold N.of_uint.
  destruct d; [congruence | ..];
    cbn [NilEmpty.string_of_uint Pos.of_uint]; unfold py_int;
    cbn [lstrip is_space N_of_ascii N_of_digits]; cbn -[digits_tail Z.mul];
    first [ rewrite digits_tail_zero | rewrite (digits_tail_pos d) ];
    f_equal; lia.
Qed.

Lemma py_int_error s e : py_int s = Err e -> e = ValueError.
Proof.
  unfold py_int.
  destruct (match lstrip s with
            | String "+" r => (1%Z, r)
            | String "-" r => ((-1)%Z, r)
            | _ => (1%Z, lstrip s)
            end) as [sign s2].
  destruct s2 as [|c r]; [congruence|].
  destruct (digit_of c); [|congruence].
  destruct (digits_tail z r); congruence.
Qed.

Lemma sep_free_uint d : sep_free (NilEmpty.string_of_uint d) = true.
Proof. induction d; cbn [NilEmpty.string_of_uint sep_free]; auto. Qed.

(** ** Binary64: the numbers that round to themselves *)

Section Rounding.

Local Open Scope Z_scope.

Lemma iter_pos_iter {A : Type} (f : A -> A) n :
  forall x, iter_pos f n x = Pos.iter f x n.
Proof.
  induction n as [n IH | n IH |]; intros x; cbn.
  - rewrite !IH, Pos.iter_swap, Pos.iter_swap. reflexivity.
  - rewrite !IH. reflexivity.
  - reflexivity.
Qed.

Lemma iter_xO_mul p d : Z.pos (Pos.iter xO p d) = Z.pos p * 2 ^ Z.pos d.
Proof.
  induction d as [| d IH] using Pos.peano_ind.
  - cbn. lia.
  - rewrite Pos.iter_succ, Pos2Z.inj_succ, Z.pow_succ_r by lia.
    rewrite Pos2Z.inj_xO, IH. ring.
Qed.

Lemma digits2_iter_xO p d :
  digits2_pos (Pos.iter xO p d) = (digits2_pos p + d)%positive.
Proof.
  induction d as [| d IH] using Pos.peano_ind.
  - cbn. lia.
  - rewrite Pos.iter_succ. cbn. rewrite IH. lia.
Qed.

(** Shifting out zero bits leaves no remainder behind. *)
Lemma shr_even q d :
  Pos.iter shr_1
    {| shr_m := Z.pos (Pos.iter xO q d); shr_r := false; shr_s := false |} d
  = {| shr_m := Z.pos q; shr_r := false; shr_s := false |}.
Proof.
  induction d as [| d IH] using Pos.peano_ind.
  - reflexivity.
  - rewrite Pos.iter_succ_r, Pos.iter_succ. cbn. exact IH.
Qed.

(** A mantissa at its canonical exponent is not changed by the rounding. *)
Lemma round_canonical s m e :
  fexp prec emax (Z.pos (digits2_pos m) + e) = e -> e <= emax - prec ->
  binary_round_aux prec emax s (Z.pos m) e loc_Exact = S754_finite s m e.
Proof.
  intros Hc He. unfold binary_round_aux, shr_fexp.
  cbn [Zdigits2 shr_record_of_loc].
  rewrite Hc, Z.sub_diag. cbn [shr shr_m loc_of_shr_record round_nearest_even].
  cbn [Zdigits2]. rewrite Hc, Z.sub_diag. cbn [shr shr_m].
  apply Z.leb_le in He. rewrite He. reflexivity.
Qed.

(** [p * 2^e] rounds to [q * 2^e'] when the two are the same number and
    [e'] is the canonical exponent. *)
Lemma binary_round_exact s p e q e' :
  e' = fexp prec emax (Z.pos (digits2_pos p) + e) ->
  e' <= emax - prec ->
  (e' <= e /\ Z.pos q = Z.pos p * 2 ^ (e - e') \/
   e < e' /\ Z.pos p = Z.pos q * 2 ^ (e' - e)) ->
  binary_round prec emax s p e = S754_finite s q e'.
Proof.
  intros He' He Hq. unfold binary_round, shl_align. rewrite <- He'.
  destruct (e' - e) as [| d | d] eqn:Hd.
  - assert (Hee : e = e') by lia. destruct Hq as [[_ Hq] | [Hq _]]; [| lia].
    rewrite Hee, Z.sub_diag, Z.pow_0_r, Z.mul_1_r in Hq.
    injection Hq as ->. rewrite Hee in He' |- *.
    apply round_canonical; [symmetry; exact He' | exact He].
  - destruct Hq as [[Hq _] | [_ Hq]]; [lia |].
    rewrite <- iter_xO_mul in Hq. injection Hq as ->.
    unfold binary_round_aux, shr_fexp. cbn [Zdigits2 shr_record_of_loc].
    rewrite <- He', Hd. cbn [shr]. rewrite iter_pos_iter, shr_even.
    cbn [shr_m loc_of_shr_record round_nearest_even Zdigits2].
    replace (e + Z.pos d) with e' by lia.
    assert (Hc : fexp prec emax (Z.pos (digits2_pos q) + e') = e').
    { rewrite He' at 2. f_equal. rewrite digits2_iter_xO. lia. }
    rewrite Hc, Z.sub_diag. cbn [shr shr_m].
    apply Z.leb_le in He. rewrite He. reflexivity.
  - destruct Hq as [[_ Hq] | [Hq _]]; [| lia].
    replace (e - e') with (Z.pos d) in Hq by lia.
    rewrite <- iter_xO_mul in Hq. injection Hq as ->.
    apply round_canonical; [| exact He].
    rewrite He' at 2. f_equal. rewrite digits2_iter_xO. lia.
Qed.

Lemma digits2_bounds p :
  2 ^ (Z.pos (digits2_pos p) - 1) <= Z.pos p < 2 ^ Z.pos (digits2_pos p).
Proof.
  induction p as [p IH | p IH |]; cbn [digits2_pos]; [| | cbn; lia];
    rewrite Pos2Z.inj_succ;
    replace (Z.succ (Z.pos (digits2_pos p)) - 1)
      with (Z.succ (Z.pos (digits2_pos p) - 1)) by lia;
    rewrite !Z.pow_succ_r by lia; lia.
Qed.

Lemma digits2_le p n :
  0 <= n -> Z.pos p < 2 ^ n -> Z.pos (digits2_pos p) <= n.
Proof.
  intros Hn Hp.
  destruct (Z.le_gt_cases (Z.pos (digits2_pos p)) n) as [H | H]; [exact H|].
  pose proof (digits2_bounds p) as [Hlo _].
  assert (2 ^ n <= 2 ^ (Z.pos (digits2_pos p) - 1))
    by (apply Z.pow_le_mono_r; lia).
  lia.
Qed.

Lemma digits2_shift p k j :
  0 <= j -> Z.pos p = Z.pos k * 2 ^ j ->
  Z.pos (digits2_pos p) = Z.pos (digits2_pos k) + j.
Proof.
  intros Hj Hp. destruct j as [| d | d]; [| | lia].
  - rewrite Z.pow_0_r, Z.mul_1_r in Hp. injection Hp as ->. lia.
  - rewrite <- iter_xO_mul in Hp. injection Hp as ->.
    rewrite digits2_iter_xO. lia.
Qed.

Lemma grid_mantissa_spec k :
  Z.pos k < 2 ^ 53 ->
  Z.pos (grid_mantissa k) = Z.pos k * 2 ^ (53 - Z.pos (digits2_pos k)).
Proof.
  intros Hk. unfold grid_mantissa. apply Z2Pos.id.
  pose proof (digits2_le k 53 ltac:(lia) Hk).
  apply Z.mul_pos_pos; [lia|]. apply Z.pow_pos_nonneg; lia.
Qed.

(** The number [k / 128] with [k] below 2^53, written [p * 2^e], rounds
    to itself. *)
Lemma round_grid s p e k :
  Z.pos k < 2 ^ 53 ->
  (e <= -7 /\ Z.pos p = Z.pos k * 2 ^ (- 7 - e) \/
   -7 < e /\ Z.pos k = Z.pos p * 2 ^ (e + 7)) ->
  binary_round prec emax s p e
  = S754_finite s (grid_mantissa k) (Z.pos (digits2_pos k) - 60).
Proof.
  intros Hk Hp. pose proof (grid_mantissa_spec k Hk) as Hq.
  assert (Hd : Z.pos (digits2_pos k) <= 53)
    by (apply digits2_le; [lia | exact Hk]).
  assert (Hdp : Z.pos (digits2_pos p) + e = Z.pos (digits2_pos k) - 7).
  { destruct Hp as [[He Hp] | [He Hp]].
    - rewrite (digits2_shift p k (- 7 - e)) by (lia || exact Hp). lia.
    - rewrite (digits2_shift k p (e + 7)) by (lia || exact Hp). lia. }
  apply binary_round_exact.
  - rewrite Hdp. unfold fexp, emin, prec, emax. lia.
  - unfold emax, prec. lia.
  - destruct Hp as [[He Hp] | [He Hp]].
    + destruct (Z.le_gt_cases (Z.pos (digits2_pos k) - 60) e) as [Hle | Hgt].
      * left. split; [exact Hle|].
        rewrite Hq, Hp, <- Z.mul_assoc, <- Z.pow_add_r by lia.
        f_equal. f_equal. lia.
      * right. split; [exact Hgt|].
        rewrite Hq, Hp, <- Z.mul_assoc, <- Z.pow_add_r by lia.
        f_equal. f_equal. lia.
    + left. split; [lia|].
      rewrite Hq, Hp, <- Z.mul_assoc, <- Z.pow_add_r by lia.
      f_equal. f_equal. lia.
Qed.

Lemma cond_Zopp_mul s a b : cond_Zopp s (a * b) = cond_Zopp s a * b.
Proof. destruct s; cbn [cond_Zopp]; ring. Qed.

Lemma normalize_grid_signed s p e k :
  Z.pos k < 2 ^ 53 ->
  (e <= -7 /\ Z.pos p = Z.pos k * 2 ^ (- 7 - e) \/
   -7 < e /\ Z.pos k = Z.pos p * 2 ^ (e + 7)) ->
  binary_normalize prec emax (cond_Zopp s (Z.pos p)) e false
  = S754_finite s (grid_mantissa k) (Z.pos (digits2_pos k) - 60).
Proof.
  intros Hk Hp.
  destruct s; cbn [cond_Zopp Z.opp binary_normalize]; apply round_grid; assumption.
Qed.

Lemma grid_signed s k :
  Z.pos k < 2 ^ 53 ->
  grid (cond_Zopp s (Z.pos k))
  = S754_finite s (grid_mantissa k) (Z.pos (digits2_pos k) - 60).
Proof.
  intros Hk. unfold grid, of_dyadic. apply normalize_grid_signed; [exact Hk|].
  left. split; [lia|]. change (- 7 - - 7) with 0. rewrite Z.pow_0_r. lia.
Qed.

(** Every nonzero integer is a sign and a magnitude. *)
Lemma signed_cases K :
  K = 0 \/ exists s k, K = cond_Zopp s (Z.pos k) /\ Z.abs K = Z.pos k.
Proof.
  destruct K as [| k | k]; [left; reflexivity | right | right].
  - exists false, k. split; reflexivity.
  - exists true, k. split; reflexivity.
Qed.

Lemma grid_cases K :
  Z.abs K < 2 ^ 53 ->
  (K = 0 /\ grid K = S754_zero false)
  \/ exists s k, K = cond_Zopp s (Z.pos k) /\ Z.pos k < 2 ^ 53
                 /\ grid K = S754_finite s (grid_mantissa k)
                               (Z.pos (digits2_pos k) - 60).
Proof.
  intros HK. destruct (signed_cases K) as [-> | [s [k [HKs Habs]]]].
  - left. split; reflexivity.
  - right. exists s, k. rewrite Habs in HK. split; [exact HKs|].
    split; [exact HK|]. rewrite HKs. apply grid_signed, HK.
Qed.

(** A number [K / 128] with [K] below 2^53 in magnitude, given as
    [M * 2^e], is normalised to the float of the grid. *)
Lemma normalize_grid M e K :
  Z.abs K < 2 ^ 53 ->
  (e <= -7 /\ M = K * 2 ^ (- 7 - e) \/ -7 < e /\ K = M * 2 ^ (e + 7)) ->
  binary_normalize prec emax M e false = grid K.
Proof.
  intros HK Hrel.
  destruct (grid_cases K HK) as [[-> ->] | [s [k [HKs [Hk ->]]]]].
  - assert (M = 0) as ->; [| reflexivity].
    destruct Hrel as [[_ H] | [He H]]; [rewrite H; ring|].
    assert (0 < 2 ^ (e + 7)) by (apply Z.pow_pos_nonneg; lia). nia.
  - assert (HM : exists p, M = cond_Zopp s (Z.pos p)
                           /\ (e <= -7 /\ Z.pos p = Z.pos k * 2 ^ (- 7 - e) \/
                               -7 < e /\ Z.pos k = Z.pos p * 2 ^ (e + 7))).
    { destruct Hrel as [[He H] | [He H]].
      - exists (Z.to_pos (Z.pos k * 2 ^ (- 7 - e))).
        assert (0 < Z.pos k * 2 ^ (- 7 - e))
          by (apply Z.mul_pos_pos; [lia | apply Z.pow_pos_nonneg; lia]).
        rewrite Z2Pos.id by assumption.
        split; [| left; split; [exact He | reflexivity]].
        rewrite H, HKs. symmetry. apply cond_Zopp_mul.
      - assert (Hpow : 0 < 2 ^ (e + 7)) by (apply Z.pow_pos_nonneg; lia).
        rewrite HKs in H.
        destruct s; cbn [cond_Zopp] in H |- *; destruct M as [| p | p];
          try (exfalso; nia).
        + exists p. split; [reflexivity|]. right. split; [exact He|]. nia.
        + exists p. split; [reflexivity|]. right. split; [exact He|].
          exact H. }
    destruct HM as [p [-> Hp]]. apply normalize_grid_signed; assumption.
Qed.

Lemma shl_align_fst m e e' :
  e' <= e -> Z.pos (fst (shl_align m e e')) = Z.pos m * 2 ^ (e - e').
Proof.
  intros H. unfold shl_align. destruct (e' - e) as [| d | d] eqn:Hd.
  - replace (e - e') with 0 by lia. cbn [fst]. rewrite Z.pow_0_r. lia.
  - lia.
  - cbn [fst]. rewrite iter_xO_mul. f_equal. f_equal. lia.
Qed.

(** The sum of two floats of the grid is the float of the grid for the
    sum, as long as the sum has no more than 53 bits. *)
Lemma float_add_grid K1 K2 :
  Z.abs K1 < 2 ^ 53 -> Z.abs K2 < 2 ^ 53 -> Z.abs (K1 + K2) < 2 ^ 53 ->
  float_add (grid K1) (grid K2) = grid (K1 + K2).
Proof.
  intros H1 H2 H12. unfold float_add.
  destruct (grid_cases K1 H1) as [[-> ->] | [s1 [k1 [HK1 [Hk1 G1]]]]];
    destruct (grid_cases K2 H2) as [[-> ->] | [s2 [k2 [HK2 [Hk2 G2]]]]].
  - reflexivity.
  - rewrite Z.add_0_l, G2. reflexivity.
  - rewrite Z.add_0_r, G1. reflexivity.
  - rewrite G1, G2. cbn [SFadd].
    pose proof (digits2_le k1 53 ltac:(lia) Hk1) as Hd1.
    pose proof (digits2_le k2 53 ltac:(lia) Hk2) as Hd2.
    set (e1 := Z.pos (digits2_pos k1) - 60) in *.
    set (e2 := Z.pos (digits2_pos k2) - 60) in *.
    apply normalize_grid; [exact H12|]. left. split; [lia|].
    rewrite !shl_align_fst by lia.
    rewrite !(grid_mantissa_spec _ Hk1), !(grid_mantissa_spec _ Hk2).
    rewrite <- !Z.mul_assoc, <- !Z.pow_add_r by lia.
    replace (53 - Z.pos (digits2_pos k1) + (e1 - Z.min e1 e2))
      with (- 7 - Z.min e1 e2) by lia.
    replace (53 - Z.pos (digits2_pos k2) + (e2 - Z.min e1 e2))
      with (- 7 - Z.min e1 e2) by lia.
    rewrite !cond_Zopp_mul, <- HK1, <- HK2. ring.
Qed.

Lemma checked_grid K : Z.abs K < 2 ^ 53 -> checked (grid K) = Ok (grid K).
Proof.
  intros HK.
  destruct (grid_cases K HK) as [[_ ->] | [s [k [_ [_ ->]]]]]; reflexivity.
Qed.

(** An int below 2^46 in magnitude is converted without rounding. *)
Lemma float_of_int_grid H :
  Z.abs H < 2 ^ 46 -> float_of_int H = Ok (grid (128 * H)).
Proof.
  intros HH. unfold float_of_int, of_dyadic.
  rewrite (normalize_grid H 0 (128 * H)).
  - apply checked_grid. lia.
  - lia.
  - right. split; [lia|]. change (2 ^ (0 + 7)) with 128. ring.
Qed.

End Rounding.

(** The float of the grid for [K] is the number [K / 128]. *)
Lemma grid_value K :
  (Z.abs K < 2 ^ 53)%Z -> returns (Ok (grid K)) (inject_Z K / 128).
Proof.
  intros HK. cbn [returns].
  destruct (grid_cases K HK) as [[-> ->] | [s [k [HKs [Hk ->]]]]].
  - reflexivity.
  - cbn [float_value]. rewrite HKs.
    pose proof (digits2_le k 53 ltac:(lia) Hk) as Hd.
    assert (Hpos : inject_Z (Z.pos (grid_mantissa k))
                   * 2 ^ (Z.pos (digits2_pos k) - 60)
                   == inject_Z (Z.pos k) / 128).
    { rewrite (grid_mantissa_spec k Hk), inject_Z_mult.
      rewrite (Zpower_Qpower 2) by lia.
      rewrite <- Qmult_assoc.
      change (inject_Z 2) with 2.
      rewrite <- Qpower_plus by discriminate.
      replace (53 - Z.pos (digits2_pos k) + (Z.pos (digits2_pos k) - 60))%Z
        with (- 7)%Z by lia.
      reflexivity. }
    destruct s; cbn [cond_Zopp]; [| exact Hpos].
    change (Z.neg (grid_mantissa k)) with (- Z.pos (grid_mantissa k))%Z.
    change (Z.neg k) with (- Z.pos k)%Z.
    rewrite !inject_Z_opp.
    setoid_replace (- inject_Z (Z.pos (grid_mantissa k))
                    * 2 ^ (Z.pos (digits2_pos k) - 60))
      with (- (inject_Z (Z.pos (grid_mantissa k))
               * 2 ^ (Z.pos (digits2_pos k) - 60))) by ring.
    rewrite Hpos. field.
Qed.

(** ** The parser after the handle *)

Lemma to_decimal_price_parts s p0 p1 rest :
  split "'" s = p0 :: p1 :: rest ->
  to_decimal_price s
  = (handles <- py_int p0 ;
     tp <- ticks_and_partial p1 ;
     price handles (fst tp) (snd tp)).
Proof.
  intros H. unfold to_decimal_price, ticks_and_partial, price. rewrite H.
  cbn [list_get nth_error bind].
  destruct (py_int p0) as [h|]; [|reflexivity]. cbn [bind].
  destruct (py_int (slice_to 2 p1)) as [t|]; [|reflexivity]. cbn [bind].
  destruct (py_assert (t <? 32)%Z); [|reflexivity]. cbn [bind].
  destruct (if (2 <? String.length p1)%nat
            then c <- str_get p1 2; py_int (String c "")
            else Ok 0%Z) as [pt|]; [|reflexivity]. cbn [bind].
  destruct (py_assert (dict_has partial_tick_value pt)); reflexivity.
Qed.

Lemma to_decimal_price_no_sep s :
  sep_free s = true ->
  to_decimal_price s = (handles <- py_int s ; Err IndexError).
Proof.
  intros H. unfold to_decimal_price. rewrite (split_sep_free _ H).
  cbn [list_get nth_error bind]. reflexivity.
Qed.

Lemma small_nat (z : Z) (n : nat) :
  (0 <= z < Z.of_nat n)%Z -> exists k, (k < n)%nat /\ z = Z.of_nat k.
Proof. intros H. exists (Z.to_nat z). split; lia. Qed.

Lemma ticks_and_partial_well_formed (ticks : Z) (f : option frac_code) :
  (0 <= ticks <= 31)%Z ->
  ticks_and_partial (two_digits ticks ++ frac_string f)
  = Ok (ticks, frac_key f).
Proof.
  intros H.
  destruct (small_nat ticks 32) as [k [Hk ->]]; [lia|].
  do 32 (destruct k as [|k];
         [ destruct f as [f|]; [destruct f|]; vm_compute; reflexivity | ]).
  lia.
Qed.

(** ** The arithmetic of the price *)

(** The quotient of a tick count by 32 is exact. *)
Lemma int_truediv_32 (ticks : Z) :
  (0 <= ticks <= 31)%Z -> int_truediv ticks 32 = Ok (grid (4 * ticks)).
Proof.
  intros H.
  destruct (small_nat ticks 32) as [k [Hk ->]]; [lia|].
  do 32 (destruct k as [|k]; [ vm_compute; reflexivity | ]).
  lia.
Qed.

Lemma partial_tick_grid (f : option frac_code) :
  dict_get partial_tick_value (frac_key f) = Ok (grid (frac_units f)).
Proof. destruct f as [[]|]; vm_compute; reflexivity. Qed.

Lemma frac_units_range f : (0 <= frac_units f <= 3)%Z.
Proof. destruct f as [[]|]; cbn; lia. Qed.

Lemma frac_units_value f : frac_value f == inject_Z (frac_units f) / 4.
Proof. destruct f as [[]|]; reflexivity. Qed.

(** Below 2^46 every sum of the last line is exact: the price is the
    float of the grid for 128 handles + 4 ticks + the 128ths of the
    fraction. *)
Lemma price_grid (H ticks : Z) (f : option frac_code) :
  (Z.abs H < 2 ^ 46)%Z -> (0 <= ticks <= 31)%Z ->
  price H ticks (frac_key f)
  = Ok (grid (128 * H + 4 * ticks + frac_units f)).
Proof.
  intros HH Ht. pose proof (frac_units_range f) as Hf.
  unfold price, int_add_float.
  rewrite (int_truediv_32 _ Ht). cbn [bind].
  rewrite (float_of_int_grid _ HH). cbn [bind].
  rewrite partial_tick_grid. cbn [bind].
  rewrite !float_add_grid by lia. reflexivity.
Qed.

Lemma grid_price_value (H t : Z) (f : option frac_code) :
  inject_Z (128 * H + 4 * t + frac_units f) / 128
  == inject_Z H + inject_Z t / 32 + frac_value f / 32.
Proof.
  rewrite frac_units_value, !inject_Z_plus, !inject_Z_mult. field.
Qed.

Lemma returns_grid (K : Z) (q : Q) :
  (Z.abs K < 2 ^ 53)%Z -> inject_Z K / 128 == q -> returns (Ok (grid K)) q.
Proof.
  intros HK Hq. pose proof (grid_value K HK) as Hv. cbn [returns] in *.
  destruct (float_value (grid K)); [|exact Hv]. rewrite Hv. exact Hq.
Qed.

(** ** Claims on the price-tick parser *)

(** C2 (as stated, refuted): the token "99'16+" is not converted to
    99.515625; the call raises. *)
Lemma plus_quote_not_converted :
  ~ returns (to_decimal_price "99'16+") 99.515625.
Proof. vm_compute. exact (fun H => H). Qed.

(** C2 (amended): the parser refuses the plus sign of "99'16+" with the
    ValueError of [int("+")]; the half tick is written with the fraction
    digit 5, and "99'165" is converted to 99 + 16/32 + (1/2)/32 = 99.515625. *)
Theorem half_tick_quote :
  to_decimal_price "99'16+" = Err ValueError
  /\ returns (to_decimal_price "99'165") (99 + 16 / 32 + (1 # 2) / 32)
  /\ returns (to_decimal_price "99'165") 99.515625.
Proof. refine (conj _ (conj _ _)); vm_compute; reflexivity. Qed.

(** C3 (as stated, refuted): the handle 9007199254740993 = 2^53 + 1 is
    not a float; the price of "9007199254740993'16" is 9007199254740992,
    below the handle, and not handle + 16/32. At the handle 2^46 =
    70368744177664 the quarter of a 32nd is already lost. A handle of 401
    digits is beyond the floats, and the call raises OverflowError. *)
Lemma large_handle_rounded :
  N.to_uint 9007199254740993 <> Decimal.Nil
  /\ quote_token (N.to_uint 9007199254740993) 16 None = "9007199254740993'16"
  /\ returns (to_decimal_price "9007199254740993'16") 9007199254740992
  /\ ~ returns (to_decimal_price
                 (quote_token (N.to_uint 9007199254740993) 16 None))
              (inject_Z (Z.of_N (N.of_uint (N.to_uint 9007199254740993)))
               + inject_Z 16 / 32 + frac_value None / 32)
  /\ quote_token (N.to_uint 70368744177664) 0 (Some F2) = "70368744177664'002"
  /\ returns (to_decimal_price "70368744177664'002") 70368744177664
  /\ to_decimal_price (quote_token (N.to_uint (10 ^ 400)) 16 None)
     = Err OverflowError.
Proof.
  split; [vm_compute; discriminate|]. split; [vm_compute; reflexivity|].
  split; [vm_compute; reflexivity|]. split; [vm_compute; discriminate|].
  split; [vm_compute; reflexivity|]. split; vm_compute; reflexivity.
Qed.

(** C3 (amended): for a handle below 2^46 = 70368744177664 written in
    decimal digits, two tick digits for a tick count in 0..31 and an
    optional fraction code 0, 2, 5 or 7, the parser returns the float that
    is exactly handle + ticks/32 + fraction/32; "99'16" gives 99.5,
    "99'162" gives 99.5078125 and "100'31" gives 100.96875. *)
Theorem to_decimal_price_well_formed :
  (forall (handle : Decimal.uint) (ticks : Z) (f : option frac_code),
      handle <> Decimal.Nil ->
      (Z.of_N (N.of_uint handle) < 2 ^ 46)%Z ->
      (0 <= ticks <= 31)%Z ->
      returns (to_decimal_price (quote_token handle ticks f))
              (inject_Z (Z.of_N (N.of_uint handle))
               + inject_Z ticks / 32 + frac_value f / 32))
  /\ returns (to_decimal_price "99'16") 99.5
  /\ returns (to_decimal_price "99'162") 99.5078125
  /\ returns (to_decimal_price "100'31") 100.96875.
Proof.
  split; [| refine (conj _ (conj _ _)); vm_compute; reflexivity ].
  intros handle ticks f Hh Hb Ht.
  pose proof (frac_units_range f) as Hf.
  unfold quote_token.
  rewrite (to_decimal_price_parts _ (NilEmpty.string_of_uint handle)
             (two_digits ticks ++ frac_string f) []).
  - rewrite (py_int_uint _ Hh), (ticks_and_partial_well_formed _ _ Ht).
    cbn [bind fst snd]. rewrite price_grid by lia.
    apply returns_grid; [lia | apply grid_price_value].
  - apply split_one_sep; [apply sep_free_uint|].
    destruct (small_nat ticks 32) as [k [Hk ->]]; [lia|].
    do 32 (destruct k as [|k]; [ destruct f as [f|]; [destruct f|]; reflexivity | ]).
    lia.
Qed.

Lemma to_decimal_price_well_formed_witness :
  Decimal.D1 (Decimal.D0 (Decimal.D0 Decimal.Nil)) <> Decimal.Nil
  /\ (Z.of_N (N.of_uint (Decimal.D1 (Decimal.D0 (Decimal.D0 Decimal.Nil))))
      < 2 ^ 46)%Z
  /\ (0 <= 31 <= 31)%Z
  /\ returns (to_decimal_price "100'317") (100 + 31 / 32 + (3 # 4) / 32).
Proof.
  split; [discriminate|]. split; [reflexivity|]. split; [lia|].
  exact (proj1 to_decimal_price_well_formed
           (Decimal.D1 (Decimal.D0 (Decimal.D0 Decimal.Nil))) 31%Z (Some F7)
           ltac:(discriminate) ltac:(reflexivity) ltac:(lia)).
Defined.

(** C8 (as stated, refuted): the tick field "-5" of "99'-5" parses to -5,
    outside 0..31, and the call does not fail: it returns 99 - 5/32. *)
Lemma negative_ticks_accepted :
  py_int (slice_to 2 "-5") = Ok (-5)%Z
  /\ ~ raises (to_decimal_price "99'-5")
  /\ returns (to_decimal_price "99'-5") (99 - 5 / 32).
Proof.
  split; [reflexivity|]. split.
  - intros [e H]. vm_compute in H. discriminate.
  - vm_compute. reflexivity.
Qed.

(** C8 (amended): for a token with a separator, when the first two
    characters after it are not an integer literal, or are one of value 32
    or more, the call fails: with the ValueError of [int()] in the first
    case and the AssertionError of [assert ticks < 32] in the second when
    the handle has been read, and with the handle's ValueError otherwise.
    "100'32" fails with AssertionError. *)
Theorem tick_field_rejected :
  (forall s p0 p1 rest,
      split "'" s = p0 :: p1 :: rest ->
      (raises (py_int (slice_to 2 p1))
       \/ exists t, py_int (slice_to 2 p1) = Ok t /\ (32 <= t)%Z) ->
      raises (to_decimal_price s)
      /\ (forall h, py_int p0 = Ok h ->
          (raises (py_int (slice_to 2 p1)) ->
           to_decimal_price s = Err ValueError)
          /\ (forall t, py_int (slice_to 2 p1) = Ok t -> (32 <= t)%Z ->
              to_decimal_price s = Err AssertionError)))
  /\ to_decimal_price "100'32" = Err AssertionError.
Proof.
  split; [| reflexivity ].
  intros s p0 p1 rest Hs Hbad.
  rewrite (to_decimal_price_parts _ _ _ _ Hs).
  assert (Hval : forall h, py_int p0 = Ok h ->
            (raises (py_int (slice_to 2 p1)) ->
             (handles <- py_int p0; tp <- ticks_and_partial p1;
              price handles (fst tp) (snd tp))
             = Err ValueError)
            /\ (forall t, py_int (slice_to 2 p1) = Ok t -> (32 <= t)%Z ->
                (handles <- py_int p0; tp <- ticks_and_partial p1;
                 price handles (fst tp) (snd tp))
                = Err AssertionError)).
  { intros h Hh. rewrite Hh. unfold ticks_and_partial. cbn [bind]. split.
    - intros [e He]. rewrite He. cbn [bind].
      rewrite (py_int_error _ _ He). reflexivity.
    - intros t Ht Hge. rewrite Ht. cbn [bind].
      replace (t <? 32)%Z with false by (symmetry; apply Z.ltb_ge; lia).
      reflexivity. }
  split; [| exact Hval ].
  destruct (py_int p0) as [h|e] eqn:Hh.
  - destruct (Hval h eq_refl) as [Hv Ha].
    destruct Hbad as [Hr | [t [Ht Hge]]].
    + exists ValueError. apply Hv, Hr.
    + exists AssertionError. apply (Ha t Ht Hge).
  - exists e. reflexivity.
Qed.

Lemma tick_field_rejected_witness :
  split "'" "7'4x" = ["7"; "4x"]
  /\ raises (py_int (slice_to 2 "4x"))
  /\ raises (to_decimal_price "7'4x").
Proof.
  assert (Hr : raises (py_int (slice_to 2 "4x"))) by (exists ValueError; reflexivity).
  split; [reflexivity|]. split; [exact Hr|].
  exact (proj1 (proj1 tick_field_rejected "7'4x" "7" "4x" [] eq_refl
                  (or_introl Hr))).
Defined.

(** C9 (as stated, refuted): "99'16'5" has two separators and splits
    into three parts, "-99'16" has a first part that is not a non-negative
    integer, and neither call fails. *)
Lemma extra_separator_accepted :
  split "'" "99'16'5" = ["99"; "16"; "5"]
  /\ returns (to_decimal_price "99'16'5") 99.5
  /\ returns (to_decimal_price "-99'16") (- 99 + 16 / 32)
  /\ ~ raises (to_decimal_price "99'16'5")
  /\ ~ raises (to_decimal_price "-99'16").
Proof.
  split; [reflexivity|].
  split; [vm_compute; reflexivity|].
  split; [vm_compute; reflexivity|].
  split; intros [e H]; vm_compute in H; discriminate.
Qed.

(** C9 (amended): a token without separator, and a token whose first part
    is not an integer literal of [int()] (an optionally signed decimal),
    make the call fail: with ValueError for the first part, and with
    IndexError when the first part is read and there is no second one. *)
Theorem malformed_token_rejected (s : string) :
  (raises (py_int (hd EmptyString (split "'" s))) ->
   to_decimal_price s = Err ValueError)
  /\ (List.length (split "'" s) = 1%nat ->
      to_decimal_price s = Err ValueError
      \/ to_decimal_price s = Err IndexError).
Proof.
  unfold to_decimal_price.
  destruct (split "'" s) as [|p0 ps] eqn:Hs; [elim (split_nonempty _ _ Hs)|].
  cbn [list_get nth_error bind hd]. split.
  - intros [e He]. rewrite He. cbn [bind].
    rewrite (py_int_error _ _ He). reflexivity.
  - intros Hlen. destruct ps; [|discriminate].
    destruct (py_int p0) as [h|e] eqn:He; cbn [bind nth_error].
    + right. reflexivity.
    + left. rewrite (py_int_error _ _ He). reflexivity.
Qed.

Lemma malformed_token_rejected_witness :
  List.length (split "'" "9916") = 1%nat
  /\ (to_decimal_price "9916" = Err ValueError
      \/ to_decimal_price "9916" = Err IndexError).
Proof.
  split; [reflexivity|].
  exact (proj2 (malformed_token_rejected "9916") eq_refl).
Defined.

(** C10: with one separator and more than three characters after it, the
    call reads the first three of them only: the token and the token cut
    after the third give the same result, value or exception;
    "99'16250" is read as "99'162". *)
Theorem to_decimal_price_ignores_tail :
  (forall h t : string,
      sep_free h = true -> sep_free t = true ->
      (3 < String.length t)%nat ->
      to_decimal_price (h ++ String "'" t)
      = to_decimal_price (h ++ String "'" (slice_to 3 t)))
  /\ to_decimal_price "99'16250" = to_decimal_price "99'162"
  /\ returns (to_decimal_price "99'16250") 99.5078125.
Proof.
  split; [| split; [reflexivity | vm_compute; reflexivity] ].
  intros h t Hh Ht Hlen.
  destruct t as [|a [|b [|c [|d t]]]]; cbn [String.length] in Hlen; try lia.
  assert (Ht3 : sep_free (slice_to 3 (String a (String b (String c (String d t)))))
                = true).
  { cbn [slice_to substring sep_free] in *.
    apply andb_prop in Ht. destruct Ht as [Ha Ht].
    apply andb_prop in Ht. destruct Ht as [Hb Ht].
    apply andb_prop in Ht. destruct Ht as [Hc _].
    rewrite Ha, Hb, Hc. reflexivity. }
  rewrite (to_decimal_price_parts _ _ _ _ (split_one_sep _ _ Hh Ht)).
  rewrite (to_decimal_price_parts _ _ _ _ (split_one_sep _ _ Hh Ht3)).
  reflexivity.
Qed.

Lemma to_decimal_price_ignores_tail_witness :
  sep_free "99" = true /\ sep_free "16250" = true
  /\ (3 < String.length "16250")%nat
  /\ to_decimal_price ("99" ++ String "'" "16250")
     = to_decimal_price ("99" ++ String "'" (slice_to 3 "16250")).
Proof.
  split; [reflexivity|]. split; [reflexivity|]. split; [cbn; lia|].
  exact (proj1 to_decimal_price_ignores_tail "99" "16250" eq_refl eq_refl
           ltac:(cbn; lia)).
Defined.

Local Close Scope string_scope.
Local Open Scope list_scope.

(** ** Lists updated in place *)

Section Update.

Context {A : Type}.
Implicit Types (l : list A) (f g : A -> A) (k : nat).

Lemma update_length l k f : List.length (update l k f) = List.length l.
Proof.
  revert k. induction l as [|x l IH]; intros [|k]; cbn; auto.
Qed.

Lemma nth_update_eq l k f d :
  (k < List.length l)%nat -> nth k (update l k f) d = f (nth k l d).
Proof.
  revert k. induction l as [|x l IH]; intros [|k] H; cbn in *; try lia; auto.
  apply IH. lia.
Qed.

Lemma nth_update_neq l k k' f d :
  k <> k' -> nth k' (update l k f) d = nth k' l d.
Proof.
  revert k k'. induction l as [|x l IH]; intros [|k] [|k'] H; cbn;
    try reflexivity; try congruence.
  apply IH. congruence.
Qed.

Lemma update_update l k f g :
  update (update l k f) k g = update l k (fun x => g (f x)).
Proof.
  revert k. induction l as [|x l IH]; intros [|k]; cbn; auto.
  now rewrite IH.
Qed.

Lemma Forall_update (P : A -> Prop) l k f d :
  Forall P l -> P (f (nth k l d)) -> Forall P (update l k f).
Proof.
  intros Hl. revert k.
  induction Hl as [|x l Hx Hl IH]; intros [|k] Hf; cbn in *; constructor; auto.
Qed.

End Update.

(** ** Array indices and shapes *)

Lemma norm_index_inv i len k :
  norm_index i len = Ok k ->
  (k < len)%nat /\ (- Z.of_nat len <= i < Z.of_nat len)%Z
  /\ k = Z.to_nat (i mod Z.of_nat len).
Proof.
  unfold norm_index.
  destruct ((0 <=? i) && (i <? Z.of_nat len))%Z eqn:H1.
  - apply andb_prop in H1. destruct H1 as [Ha Hb].
    apply Z.leb_le in Ha. apply Z.ltb_lt in Hb.
    intros [= <-]. rewrite Z.mod_small by lia. lia.
  - destruct ((- Z.of_nat len <=? i) && (i <? 0))%Z eqn:H2; [|discriminate].
    apply andb_prop in H2. destruct H2 as [Ha Hb].
    apply Z.leb_le in Ha. apply Z.ltb_lt in Hb.
    intros [= <-].
    replace (i mod Z.of_nat len)%Z with (i + Z.of_nat len)%Z; [lia|].
    apply Z.mod_unique with (q := (-1)%Z); lia.
Qed.

Lemma norm_index_nonneg i len k :
  (0 <= i)%Z -> norm_index i len = Ok k -> k = Z.to_nat i /\ (i < Z.of_nat len)%Z.
Proof.
  intros Hi H. destruct (norm_index_inv _ _ _ H) as [Hk [Hr ->]].
  rewrite Z.mod_small by lia. lia.
Qed.

Lemma norm_index_row_of i n k :
  norm_index (i - 1) n = Ok k -> k = row_of n i /\ (k < n)%nat.
Proof.
  intros H. destruct (norm_index_inv _ _ _ H) as [Hk [_ ->]].
  split; [reflexivity|]. exact Hk.
Qed.

Lemma ncols_shape a n m r : has_shape a n m -> (r < n)%nat -> ncols a r = m.
Proof.
  intros [Hn Hm] Hr. unfold ncols.
  rewrite Forall_forall in Hm. apply Hm, nth_In. lia.
Qed.

Lemma has_shape_update a n m r (f : list Q -> list Q) :
  has_shape a n m -> (r < n)%nat ->
  List.length (f (nth r a [])) = m ->
  has_shape (update a r f) n m.
Proof.
  intros [Hn Hm] Hr Hf. split.
  - now rewrite update_length.
  - now apply Forall_update with (d := []).
Qed.

Lemma has_shape_zeros n m : has_shape (repeat (repeat 0 m) n) n m.
Proof.
  split; [apply repeat_length|].
  apply Forall_forall. intros row Hrow.
  apply repeat_spec in Hrow. subst. apply repeat_length.
Qed.

(** The four array writes, read back on an array of known shape. *)

Lemma set_item_inv a r c v a' n m :
  set_item a r c v = Ok a' -> has_shape a n m ->
  exists r' c', norm_index r n = Ok r' /\ norm_index c m = Ok c'
    /\ a' = update a r' (fun row => update row c' (fun _ => v)).
Proof.
  unfold set_item. intros H Hs. destruct Hs as [Hn Hm].
  rewrite Hn in H.
  destruct (norm_index r n) as [r'|] eqn:Hr; [|discriminate]. cbn [bind] in H.
  destruct (norm_index_inv _ _ _ Hr) as [Hlt _].
  rewrite (ncols_shape a n m r' (conj Hn Hm) Hlt) in H.
  destruct (norm_index c m) as [c'|] eqn:Hc; [|discriminate]. cbn [bind] in H.
  injection H as <-. exists r', c'. auto.
Qed.

Lemma add_item_inv a r c v a' n m :
  add_item a r c v = Ok a' -> has_shape a n m ->
  exists r' c', norm_index r n = Ok r' /\ norm_index c m = Ok c'
    /\ a' = update a r' (fun row => update row c' (fun x => x + v)).
Proof.
  unfold add_item. intros H Hs. destruct Hs as [Hn Hm].
  rewrite Hn in H.
  destruct (norm_index r n) as [r'|] eqn:Hr; [|discriminate]. cbn [bind] in H.
  destruct (norm_index_inv _ _ _ Hr) as [Hlt _].
  rewrite (ncols_shape a n m r' (conj Hn Hm) Hlt) in H.
  destruct (norm_index c m) as [c'|] eqn:Hc; [|discriminate]. cbn [bind] in H.
  injection H as <-. exists r', c'. auto.
Qed.

Lemma fill_slice_inv a r k v a' n m :
  fill_slice a r k v = Ok a' -> has_shape a n m ->
  exists r', norm_index r n = Ok r'
    /\ a' = update a r' (fun row => repeat v (slice_stop k m)
                                      ++ skipn (slice_stop k m) row).
Proof.
  unfold fill_slice. intros H Hs. destruct Hs as [Hn Hm].
  rewrite Hn in H.
  destruct (norm_index r n) as [r'|] eqn:Hr; [|discriminate]. cbn [bind] in H.
  destruct (norm_index_inv _ _ _ Hr) as [Hlt _].
  rewrite (ncols_shape a n m r' (conj Hn Hm) Hlt) in H.
  injection H as <-. exists r'. auto.
Qed.

Lemma slice_stop_le k m : (slice_stop k m <= m)%nat.
Proof. unfold slice_stop. cbv zeta. destruct (Z.ltb_spec k 0); lia. Qed.

Lemma set_slice_shape a r k vals a' n m :
  set_slice a r k vals = Ok a' -> has_shape a n m -> has_shape a' n m.
Proof.
  unfold set_slice. intros H Hs. pose proof Hs as [Hn Hm].
  rewrite Hn in H.
  destruct (norm_index r n) as [r'|] eqn:Hr; [|discriminate]. cbn [bind] in H.
  destruct (norm_index_inv _ _ _ Hr) as [Hlt _].
  rewrite (ncols_shape a n m r' Hs Hlt) in H.
  pose proof (slice_stop_le k m) as Hle.
  assert (Hrow : List.length (nth r' a []) = m).
  { apply (ncols_shape a n m r' Hs Hlt). }
  destruct (List.length vals =? slice_stop k m)%nat eqn:Hv.
  - injection H as <-. apply Nat.eqb_eq in Hv.
    apply has_shape_update; auto.
    rewrite length_app, length_skipn. lia.
  - destruct (List.length vals =? 1)%nat; [|discriminate].
    injection H as <-. apply has_shape_update; auto.
    rewrite length_app, length_skipn, repeat_length. lia.
Qed.

Lemma update_ext {A : Type} (l : list A) k (f g : A -> A) :
  (forall x, f x = g x) -> update l k f = update l k g.
Proof.
  intros H. revert k. induction l as [|x l IH]; intros [|k]; cbn; auto.
  - now rewrite H.
  - now rewrite IH.
Qed.

Lemma cumsum_from_length l :
  forall acc, List.length (cumsum_from acc l) = List.length l.
Proof. induction l as [|x l IH]; intros acc; cbn; auto. Qed.

Lemma cumsum_length l : List.length (cumsum l) = List.length l.
Proof. destruct l; cbn; auto using cumsum_from_length. Qed.

Lemma set_slice_inv a r k vals a' n m :
  set_slice a r k vals = Ok a' -> has_shape a n m ->
  List.length vals = slice_stop k m ->
  exists r', norm_index r n = Ok r'
    /\ a' = update a r' (fun row => vals ++ skipn (slice_stop k m) row).
Proof.
  unfold set_slice. intros H Hs Hlen. pose proof Hs as [Hn Hm].
  rewrite Hn in H.
  destruct (norm_index r n) as [r'|] eqn:Hr; [|discriminate]. cbn [bind] in H.
  destruct (norm_index_inv _ _ _ Hr) as [Hlt _].
  rewrite (ncols_shape a n m r' Hs Hlt), Hlen, Nat.eqb_refl in H.
  injection H as <-. exists r'. auto.
Qed.

(** ** One turn of the loop *)

Lemma times_length s : List.length (times s) = Z.to_nat (semi_periods s - 1).
Proof.
  unfold times.
  now rewrite length_map, length_rev, cumsum_length, length_map, repeat_length.
Qed.

Lemma ones_inv k l : ones k = Ok l -> (0 <= k)%Z.
Proof.
  unfold ones. destruct (Z.ltb_spec k 0); [discriminate|]. intros _. lia.
Qed.

Lemma loop_body_inv mt cf i s mt' cf' n m :
  loop_body (mt, cf) i s = Ok (mt', cf') ->
  has_shape mt n m -> has_shape cf n m ->
  has_shape mt' n m /\ has_shape cf' n m
  /\ (row_of n i < n)%nat
  /\ (0 <= semi_periods s <= Z.of_nat m)%Z
  /\ (1 <= m)%nat
  /\ cf' = update cf (row_of n i) (cash_row s)
  /\ mt' = update mt (row_of n i) (time_row s).
Proof.
  intros H Hmt Hcf. unfold loop_body in H.
  destruct (semi_periods s =? 0)%Z eqn:Hp.
  - apply Z.eqb_eq in Hp.
    destruct (set_item mt (i - 1) 0 (MATURITY s)) as [mt1|] eqn:H1;
      [|discriminate]. cbn [bind] in H.
    destruct (set_item cf (i - 1) 0 100) as [cf1|] eqn:H2;
      [|discriminate]. cbn [bind] in H.
    injection H as <- <-.
    destruct (set_item_inv _ _ _ _ _ _ _ H1 Hmt) as [r1 [c1 [Hr1 [Hc1 ->]]]].
    destruct (set_item_inv _ _ _ _ _ _ _ H2 Hcf) as [r2 [c2 [Hr2 [Hc2 ->]]]].
    destruct (norm_index_row_of _ _ _ Hr1) as [-> Hlt].
    destruct (norm_index_row_of _ _ _ Hr2) as [-> _].
    destruct (norm_index_nonneg _ _ _ (Z.le_refl 0) Hc1) as [-> Hm1].
    destruct (norm_index_nonneg _ _ _ (Z.le_refl 0) Hc2) as [-> _].
    refine (conj _ (conj _ (conj Hlt (conj _ (conj _ (conj _ _)))))); try lia.
    + apply has_shape_update; auto.
      rewrite update_length. apply (ncols_shape mt n m _ Hmt Hlt).
    + apply has_shape_update; auto.
      rewrite update_length. apply (ncols_shape cf n m _ Hcf Hlt).
    + apply update_ext. intros row. unfold cash_row.
      rewrite Hp. reflexivity.
    + apply update_ext. intros row. unfold time_row.
      rewrite Hp. reflexivity.
  - apply Z.eqb_neq in Hp.
    destruct (set_item mt (i - 1) (semi_periods s - 1) (MATURITY s))
      as [mt1|] eqn:H1; [|discriminate]. cbn [bind] in H.
    destruct (ones (semi_periods s - 1)) as [halves|] eqn:H2;
      [|discriminate]. cbn [bind] in H.
    match type of H with
    | bind (set_slice ?a ?r ?k ?v) _ = _ =>
        destruct (set_slice a r k v) as [mt2|] eqn:H3; [|discriminate]
    end. cbn [bind] in H.
    destruct (fill_slice cf (i - 1) (semi_periods s) (COUPON s / 2))
      as [cf1|] eqn:H4; [|discriminate]. cbn [bind] in H.
    destruct (add_item cf1 (i - 1) (semi_periods s - 1) 100)
      as [cf2|] eqn:H5; [|discriminate]. cbn [bind] in H.
    injection H as <- <-.
    pose proof (ones_inv _ _ H2) as Hge.
    destruct (set_item_inv _ _ _ _ _ _ _ H1 Hmt) as [r1 [c1 [Hr1 [Hc1 ->]]]].
    destruct (norm_index_row_of _ _ _ Hr1) as [-> Hlt].
    destruct (norm_index_nonneg _ _ _ Hge Hc1) as [-> Hm1].
    assert (Hmt1 : has_shape
              (update mt (row_of n i)
                 (fun row => update row (Z.to_nat (semi_periods s - 1))
                               (fun _ => MATURITY s))) n m).
    { apply has_shape_update; auto.
      rewrite update_length. apply (ncols_shape mt n m _ Hmt Hlt). }
    pose proof (set_slice_shape _ _ _ _ _ _ _ H3 Hmt1) as Hmt2.
    assert (Hstop1 : slice_stop (semi_periods s - 1) m
                     = Z.to_nat (semi_periods s - 1)).
    { unfold slice_stop. cbv zeta.
      destruct (Z.ltb_spec (semi_periods s - 1) 0); lia. }
    assert (Htimes : mt2 = update mt (row_of n i) (time_row s)).
    { unfold ones in H2.
      destruct (Z.ltb_spec (semi_periods s - 1) 0); [discriminate|].
      injection H2 as <-. fold (times s) in H3.
      destruct (set_slice_inv _ _ _ _ _ _ _ H3 Hmt1) as [r3 [Hr3 ->]].
      { rewrite times_length. symmetry. exact Hstop1. }
      destruct (norm_index_row_of _ _ _ Hr3) as [-> _].
      rewrite update_update. apply update_ext. intros row. unfold time_row.
      destruct (Z.eqb_spec (semi_periods s) 0); [contradiction|].
      rewrite Hstop1. reflexivity. }
    destruct (fill_slice_inv _ _ _ _ _ _ _ H4 Hcf) as [r4 [Hr4 ->]].
    destruct (norm_index_row_of _ _ _ Hr4) as [-> _].
    assert (Hstop : slice_stop (semi_periods s) m = Z.to_nat (semi_periods s)).
    { unfold slice_stop. cbv zeta.
      destruct (Z.ltb_spec (semi_periods s) 0); lia. }
    rewrite Hstop in H5.
    assert (Hcf1 : has_shape
              (update cf (row_of n i)
                 (fun row => repeat (COUPON s / 2) (Z.to_nat (semi_periods s))
                             ++ skipn (Z.to_nat (semi_periods s)) row)) n m).
    { apply has_shape_update; auto.
      rewrite length_app, length_skipn, repeat_length.
      rewrite (ncols_shape cf n m _ Hcf Hlt : List.length (nth _ cf []) = m).
      lia. }
    destruct (add_item_inv _ _ _ _ _ _ _ H5 Hcf1) as [r5 [c5 [Hr5 [Hc5 Heq]]]].
    destruct (norm_index_row_of _ _ _ Hr5) as [-> _].
    destruct (norm_index_nonneg _ _ _ Hge Hc5) as [-> _].
    rewrite update_update in Heq.
    assert (Hcash : cf2 = update cf (row_of n i) (cash_row s)).
    { rewrite Heq. apply update_ext. intros row. unfold cash_row.
      destruct (Z.eqb_spec (semi_periods s) 0); [contradiction|].
      reflexivity. }
    refine (conj Hmt2 (conj _ (conj Hlt (conj _ (conj _ (conj Hcash Htimes))))));
      try lia.
    rewrite Hcash. apply has_shape_update; auto.
    unfold cash_row. destruct (Z.eqb_spec (semi_periods s) 0); [contradiction|].
    rewrite update_length, length_app, length_skipn, repeat_length.
    rewrite (ncols_shape cf n m _ Hcf Hlt : List.length (nth _ cf []) = m).
    lia.
Qed.

(** ** The whole loop *)

Lemma iterrows_inv df : forall mt cf mt' cf' n m,
  iterrows df (mt, cf) = Ok (mt', cf') ->
  has_shape mt n m -> has_shape cf n m ->
  has_shape mt' n m /\ has_shape cf' n m
  /\ (forall r, ~ In r (rows_of n df) ->
      nth r cf' [] = nth r cf [] /\ nth r mt' [] = nth r mt [])
  /\ (NoDup (rows_of n df) ->
      forall i s, In (i, s) df ->
        (row_of n i < n)%nat
        /\ (0 <= semi_periods s <= Z.of_nat m)%Z /\ (1 <= m)%nat
        /\ nth (row_of n i) cf' [] = cash_row s (nth (row_of n i) cf [])
        /\ nth (row_of n i) mt' [] = time_row s (nth (row_of n i) mt [])).
Proof.
  induction df as [|[i0 s0] df IH]; intros mt cf mt' cf' n m H Hmt Hcf.
  - cbn in H. injection H as <- <-.
    refine (conj Hmt (conj Hcf (conj _ _))); [split; reflexivity|].
    intros _ i s [].
  - cbn [iterrows] in H.
    destruct (loop_body (mt, cf) i0 s0) as [[mt1 cf1]|] eqn:Hb; [|discriminate].
    cbn [bind] in H.
    destruct (loop_body_inv _ _ _ _ _ _ _ _ Hb Hmt Hcf)
      as [Hmt1 [Hcf1 [Hlt [Hp [Hm [-> ->]]]]]].
    destruct (IH _ _ _ _ _ _ H Hmt1 Hcf1) as [Hmt' [Hcf' [Hout Hin]]].
    refine (conj Hmt' (conj Hcf' (conj _ _))).
    + intros r Hr. cbn [rows_of map fst] in Hr.
      destruct (Hout r) as [-> ->];
        [intros Hc; apply Hr; right; exact Hc|].
      split; apply nth_update_neq; intros Heq; apply Hr; left; exact Heq.
    + intros Hnd i s Hi. cbn [rows_of map fst] in Hnd.
      apply NoDup_cons_iff in Hnd. destruct Hnd as [Hnot Hnd].
      destruct Hi as [Heq | Hi].
      * injection Heq as Hi0 Hs0. subst i0 s0.
        refine (conj Hlt (conj Hp (conj Hm _))).
        destruct (Hout _ Hnot) as [-> ->].
        split; apply nth_update_eq.
        -- destruct Hcf as [-> _]. exact Hlt.
        -- destruct Hmt as [-> _]. exact Hlt.
      * destruct (Hin Hnd i s Hi) as [Hlt' [Hp' [Hm' [Hrow Hrow']]]].
        refine (conj Hlt' (conj Hp' (conj Hm' _))).
        assert (Hneq : row_of n i0 <> row_of n i).
        { intros Heq. apply Hnot. unfold rows_of. rewrite Heq.
          apply (in_map (fun lr => row_of n (fst lr)) df (i, s) Hi). }
        rewrite Hrow, Hrow'.
        split; f_equal; apply nth_update_neq; exact Hneq.
Qed.

(** ** The column count *)

Lemma Qmax_cases a b : (Qmax a b = a \/ Qmax a b = b) /\ a <= Qmax a b /\ b <= Qmax a b.
Proof.
  unfold Qmax. destruct (Qle_bool a b) eqn:H.
  - apply Qle_bool_iff in H. repeat split; auto; lra.
  - assert (~ a <= b) by (intros Hc; apply Qle_bool_iff in Hc; congruence).
    repeat split; auto; lra.
Qed.

Lemma fold_max_in l : forall a, In (fold_left Qmax l a) (a :: l).
Proof.
  induction l as [|x l IH]; intros a; cbn [fold_left].
  - left. reflexivity.
  - destruct (IH (Qmax a x)) as [H|H].
    + destruct (Qmax_cases a x) as [[Ha|Hx] _].
      * left. congruence.
      * right. left. congruence.
    + right. right. exact H.
Qed.

Lemma fold_max_ub l : forall a x, In x (a :: l) -> x <= fold_left Qmax l a.
Proof.
  induction l as [|y l IH]; intros a x Hx; cbn [fold_left].
  - destruct Hx as [->|[]]. lra.
  - destruct (Qmax_cases a y) as [_ [Ha Hy]].
    destruct Hx as [->|[->|Hx]].
    + apply Qle_trans with (Qmax x y); [exact Ha|]. apply IH. left. reflexivity.
    + apply Qle_trans with (Qmax a x); [exact Hy|]. apply IH. left. reflexivity.
    + apply IH. right. exact Hx.
Qed.

Lemma series_max_in l M : series_max l = Some M -> In M l.
Proof.
  destruct l as [|a l]; [discriminate|]. intros [= <-]. apply fold_max_in.
Qed.

Lemma series_max_ub l M x : series_max l = Some M -> In x l -> x <= M.
Proof.
  destruct l as [|a l]; [discriminate|]. intros [= <-]. apply fold_max_ub.
Qed.

Lemma series_max_some l : l <> [] -> exists M, series_max l = Some M.
Proof. destruct l; [congruence|]. intros _. eexists. reflexivity. Qed.

Lemma div_half x : x / (1 # 2) == 2 * x.
Proof. field. Qed.

Lemma cashflows_matrix_inv df q cf mt :
  cashflows_matrix df q = Ok (cf, mt) ->
  exists N, max_semi_periods df q = Ok N /\ (0 <= N)%Z
    /\ iterrows df (repeat (repeat 0 (Z.to_nat N)) (List.length df),
                    repeat (repeat 0 (Z.to_nat N)) (List.length df))
       = Ok (mt, cf).
Proof.
  unfold cashflows_matrix. intros H.
  destruct (max_semi_periods df q) as [N|] eqn:HN; [|discriminate].
  cbn [bind] in H. unfold zeros in H.
  destruct (Z.ltb_spec N 0); [discriminate|]. cbn [bind] in H.
  match type of H with
  | bind ?it _ = _ => destruct it as [[mt' cf']|] eqn:Hit; [|discriminate]
  end.
  cbn [bind fst snd] in H. injection H as <- <-.
  exists N. auto.
Qed.

(** ** When the call returns *)

Lemma norm_index_in_range i len :
  (- Z.of_nat len <= i < Z.of_nat len)%Z -> exists k, norm_index i len = Ok k.
Proof.
  intros H. unfold norm_index.
  destruct ((0 <=? i) && (i <? Z.of_nat len))%Z eqn:H1; [eexists; reflexivity|].
  destruct ((- Z.of_nat len <=? i) && (i <? 0))%Z eqn:H2; [eexists; reflexivity|].
  apply andb_false_iff in H1. apply andb_false_iff in H2.
  rewrite !Z.leb_gt, !Z.ltb_ge in *. lia.
Qed.

Lemma set_item_returns a n m r c v :
  has_shape a n m ->
  (- Z.of_nat n <= r < Z.of_nat n)%Z -> (0 <= c < Z.of_nat m)%Z ->
  exists a', set_item a r c v = Ok a' /\ has_shape a' n m.
Proof.
  intros Hs Hr Hc. unfold set_item. pose proof Hs as [Hn _]. rewrite Hn.
  destruct (norm_index_in_range r n Hr) as [r' Hr']. rewrite Hr'. cbn [bind].
  destruct (norm_index_inv _ _ _ Hr') as [Hlt _].
  rewrite (ncols_shape a n m r' Hs Hlt).
  destruct (norm_index_in_range c m) as [c' Hc']; [lia|]. rewrite Hc'. cbn [bind].
  eexists. split; [reflexivity|].
  apply has_shape_update; auto.
  rewrite update_length. apply (ncols_shape a n m r' Hs Hlt).
Qed.

Lemma loop_body_returns mt cf n m i s :
  has_shape mt n m -> has_shape cf n m -> (1 <= m)%nat ->
  (- Z.of_nat n <= i - 1 < Z.of_nat n)%Z ->
  (0 <= semi_periods s <= Z.of_nat m)%Z ->
  exists st', loop_body (mt, cf) i s = Ok st'.
Proof.
  intros Hmt Hcf Hm Hi Hp. unfold loop_body.
  destruct (Z.eqb_spec (semi_periods s) 0) as [H0|H0].
  - destruct (set_item_returns mt n m (i - 1) 0 (MATURITY s) Hmt Hi)
      as [mt1 [-> _]]; [lia|].
    destruct (set_item_returns cf n m (i - 1) 0 100 Hcf Hi)
      as [cf1 [-> _]]; [lia|].
    cbn [bind]. eexists. reflexivity.
  - destruct (set_item_returns mt n m (i - 1) (semi_periods s - 1)
                (MATURITY s) Hmt Hi) as [mt1 [-> Hmt1]]; [lia|].
    cbn [bind]. unfold ones.
    destruct (Z.ltb_spec (semi_periods s - 1) 0); [lia|]. cbn [bind].
    destruct (norm_index_in_range (i - 1) n Hi) as [r Hr].
    destruct (norm_index_inv _ _ _ Hr) as [Hlt _].
    unfold set_slice. pose proof Hmt1 as [Hn1 _]. rewrite Hn1, Hr. cbn [bind].
    rewrite (ncols_shape mt1 n m r Hmt1 Hlt).
    assert (Hstop : slice_stop (semi_periods s - 1) m
                    = Z.to_nat (semi_periods s - 1)).
    { unfold slice_stop. cbv zeta.
      destruct (Z.ltb_spec (semi_periods s - 1) 0); lia. }
    rewrite Hstop, length_map, length_rev, cumsum_length, length_map,
      repeat_length, Nat.eqb_refl. cbn [bind].
    unfold fill_slice. pose proof Hcf as [Hn2 _]. rewrite Hn2, Hr. cbn [bind].
    rewrite (ncols_shape cf n m r Hcf Hlt).
    assert (Hstop2 : slice_stop (semi_periods s) m = Z.to_nat (semi_periods s)).
    { unfold slice_stop. cbv zeta.
      destruct (Z.ltb_spec (semi_periods s) 0); lia. }
    rewrite Hstop2.
    unfold add_item. rewrite update_length, Hn2, Hr. cbn [bind].
    unfold ncols. rewrite nth_update_eq by lia.
    rewrite length_app, length_skipn, repeat_length.
    rewrite (ncols_shape cf n m r Hcf Hlt : List.length (nth r cf []) = m).
    destruct (norm_index_in_range (semi_periods s - 1)
                (Z.to_nat (semi_periods s) + (m - Z.to_nat (semi_periods s))))
      as [c Hc]; [lia|].
    rewrite Hc. cbn [bind]. eexists. reflexivity.
Qed.

Lemma iterrows_returns df : forall mt cf n m,
  has_shape mt n m -> has_shape cf n m -> (1 <= m)%nat ->
  Forall (fun lr => (- Z.of_nat n <= fst lr - 1 < Z.of_nat n)%Z
                    /\ (0 <= semi_periods (snd lr) <= Z.of_nat m)%Z) df ->
  exists st', iterrows df (mt, cf) = Ok st'.
Proof.
  induction df as [|[i s] df IH]; intros mt cf n m Hmt Hcf Hm Hall.
  - eexists. reflexivity.
  - apply Forall_cons_iff in Hall. destruct Hall as [[Hi Hp] Hall].
    cbn [fst snd] in Hi, Hp. cbn [iterrows].
    destruct (loop_body_returns mt cf n m i s Hmt Hcf Hm Hi Hp) as [[mt1 cf1] Hb].
    rewrite Hb. cbn [bind].
    destruct (loop_body_inv _ _ _ _ _ _ _ _ Hb Hmt Hcf) as [Hmt1 [Hcf1 _]].
    apply (IH mt1 cf1 n m Hmt1 Hcf1 Hm Hall).
Qed.

Lemma loop_body_label mt cf i s st' n m :
  loop_body (mt, cf) i s = Ok st' -> has_shape mt n m ->
  (- Z.of_nat n <= i - 1 < Z.of_nat n)%Z.
Proof.
  intros H Hmt. unfold loop_body in H.
  destruct (semi_periods s =? 0)%Z.
  - destruct (set_item mt (i - 1) 0 (MATURITY s)) as [mt1|] eqn:H1;
      [|discriminate].
    destruct (set_item_inv _ _ _ _ _ _ _ H1 Hmt) as [r [c [Hr _]]].
    apply (norm_index_inv _ _ _ Hr).
  - destruct (set_item mt (i - 1) (semi_periods s - 1) (MATURITY s))
      as [mt1|] eqn:H1; [|discriminate].
    destruct (set_item_inv _ _ _ _ _ _ _ H1 Hmt) as [r [c [Hr _]]].
    apply (norm_index_inv _ _ _ Hr).
Qed.

Lemma iterrows_needs df : forall mt cf st' n m,
  iterrows df (mt, cf) = Ok st' ->
  has_shape mt n m -> has_shape cf n m ->
  Forall (fun lr => (- Z.of_nat n <= fst lr - 1 < Z.of_nat n)%Z
                    /\ (0 <= semi_periods (snd lr) <= Z.of_nat m)%Z) df
  /\ (df <> [] -> (1 <= m)%nat).
Proof.
  induction df as [|[i s] df IH]; intros mt cf st' n m H Hmt Hcf.
  - split; [constructor|congruence].
  - cbn [iterrows] in H.
    destruct (loop_body (mt, cf) i s) as [[mt1 cf1]|] eqn:Hb; [|discriminate].
    cbn [bind] in H.
    pose proof (loop_body_label _ _ _ _ _ _ _ Hb Hmt) as Hlab.
    destruct (loop_body_inv _ _ _ _ _ _ _ _ Hb Hmt Hcf)
      as [Hmt1 [Hcf1 [_ [Hp [Hm _]]]]].
    destruct (IH _ _ _ _ _ H Hmt1 Hcf1) as [Hall _].
    split; [|intros _; exact Hm].
    constructor; [split; assumption | exact Hall].
Qed.

Lemma max_semi_periods_nonempty df q N :
  max_semi_periods df q = Ok N -> df <> [].
Proof. intros H ->. discriminate. Qed.

Lemma builder_needs df q cf mt :
  cashflows_matrix df q = Ok (cf, mt) ->
  exists N, max_semi_periods df q = Ok N /\ (1 <= N)%Z
    /\ Forall (fun lr =>
                 (- Z.of_nat (List.length df) < fst lr
                  <= Z.of_nat (List.length df))%Z
                 /\ (0 <= semi_periods (snd lr) <= N)%Z) df.
Proof.
  intros H.
  destruct (cashflows_matrix_inv _ _ _ _ H) as [N [HN [Hpos Hit]]].
  destruct (iterrows_needs _ _ _ _ _ _ Hit
              (has_shape_zeros _ _) (has_shape_zeros _ _)) as [Hall Hm].
  specialize (Hm (max_semi_periods_nonempty _ _ _ HN)).
  exists N. split; [exact HN|]. split; [lia|].
  rewrite Forall_forall in *. intros lr Hin.
  destruct (Hall lr Hin) as [Hl Hp]. split; lia.
Qed.

Lemma builder_suffices df q N :
  max_semi_periods df q = Ok N -> (1 <= N)%Z ->
  Forall (fun lr =>
            (- Z.of_nat (List.length df) < fst lr
             <= Z.of_nat (List.length df))%Z
            /\ (0 <= semi_periods (snd lr) <= N)%Z) df ->
  exists cf mt, cashflows_matrix df q = Ok (cf, mt).
Proof.
  intros HN H1 Hall.
  unfold cashflows_matrix. rewrite HN. cbn [bind]. unfold zeros.
  destruct (Z.ltb_spec N 0); [lia|]. cbn [bind].
  destruct (iterrows_returns df _ _ (List.length df) (Z.to_nat N)
              (has_shape_zeros _ _) (has_shape_zeros _ _)) as [[mt cf] Hit].
  - lia.
  - rewrite Forall_forall in *. intros lr Hin.
    destruct (Hall lr Hin) as [Hl Hp]. split; lia.
  - rewrite Hit. cbn [bind fst snd]. eexists. eexists. reflexivity.
Qed.

(** ** The column count and the dates *)


Lemma ratio_le_iff z k :
  inject_Z z / inject_Z SIX_MONTHS <= inject_Z k
  <-> (z <= k * SIX_MONTHS)%Z.
Proof.
  change (inject_Z SIX_MONTHS) with (15778476000000000 # 1).
  change SIX_MONTHS with 15778476000000000%Z.
  unfold Qle, Qdiv, Qmult, Qinv, inject_Z. cbn -[Z.mul]. lia.
Qed.



(** The share of half a year between the quote date and a maturity date,
    as [max_semi_periods] divides it. *)
Lemma max_semi_periods_max df q N :
  max_semi_periods df q = Ok N ->
  exists M,
    N = Qceiling M
    /\ (exists lr, In lr df
          /\ M = inject_Z (MATURITY_DATE (snd lr) - q) / inject_Z SIX_MONTHS)
    /\ (forall lr, In lr df ->
          inject_Z (MATURITY_DATE (snd lr) - q) / inject_Z SIX_MONTHS <= M).
Proof.
  unfold max_semi_periods. intros H.
  destruct (series_max _) as [M|] eqn:HM; [|discriminate].
  injection H as <-. exists M. split; [reflexivity|].
  pose proof (series_max_in _ _ HM) as Hin. apply in_map_iff in Hin.
  destruct Hin as [lr [Hlr Hin]]. split.
  - exists lr. auto.
  - intros lr' Hin'. apply (series_max_ub _ _ _ HM).
    apply (in_map (fun lr => inject_Z (MATURITY_DATE (snd lr) - q)
                             / inject_Z SIX_MONTHS) df lr' Hin').
Qed.

Lemma max_semi_periods_some df q :
  df <> [] -> exists N, max_semi_periods df q = Ok N.
Proof.
  intros Hne. unfold max_semi_periods.
  destruct (series_max_some
              (map (fun lr => inject_Z (MATURITY_DATE (snd lr) - q)
                              / inject_Z SIX_MONTHS) df)) as [M ->].
  - destruct df; [congruence|discriminate].
  - eexists. reflexivity.
Qed.

(** ** The rows the labels address *)

Lemma row_of_from_one n i :
  (1 <= i <= Z.of_nat n)%Z -> row_of n i = Z.to_nat (i - 1).
Proof. intros H. unfold row_of. rewrite Z.mod_small by lia. reflexivity. Qed.

Lemma row_of_zero n : (1 <= n)%nat -> row_of n 0 = (n - 1)%nat.
Proof.
  intros H. unfold row_of.
  replace ((0 - 1) mod Z.of_nat n)%Z with (Z.of_nat n - 1)%Z; [lia|].
  apply Z.mod_unique with (q := (-1)%Z); lia.
Qed.

Lemma rows_of_from_one df : forall k,
  map fst df = map Z.of_nat (seq (S k) (List.length df)) ->
  forall n, (k + List.length df <= n)%nat ->
  rows_of n df = seq k (List.length df).
Proof.
  induction df as [|[i s] df IH]; intros k Hlab n Hn; [reflexivity|].
  cbn [List.length map seq fst rows_of] in *.
  injection Hlab as -> Hlab. f_equal.
  - rewrite row_of_from_one by lia. lia.
  - apply (IH (S k) Hlab). lia.
Qed.

(** ** Claims on the cashflow matrix builder *)



(** C6 (the code at the failing input): the row a security is written to
    is chosen by its index label, so under the labels 0 and 1 of a default
    index the rows do not sum to the amounts of the securities in the
    order of the frame. Security A, at position 0, pays 4 percent over 2
    periods, 100 + 4/2 * 2 = 104, and security B, at position 1, pays no
    coupon, 100; row 0 of the cashflow array sums to 100 and row 1 to
    104. *)
Theorem row_sums_follow_labels :
  exists cf mt,
    cashflows_matrix batch_default_index quote_2017 = Ok (cf, mt)
    /\ nth_error batch_default_index 0 = Some (0%Z, security_A)
    /\ 100 + COUPON security_A / 2 * inject_Z (semi_periods security_A) == 104
    /\ Qsum (nth 0 cf []) == 100
    /\ ~ Qsum (nth 0 cf [])
         == 100 + COUPON security_A / 2 * inject_Z (semi_periods security_A)
    /\ nth_error batch_default_index 1 = Some (1%Z, security_B)
    /\ 100 + COUPON security_B / 2 * inject_Z (semi_periods security_B) == 100
    /\ Qsum (nth 1 cf []) == 104.
Proof.
  eexists. eexists. split; [vm_compute; reflexivity|].
  split; [reflexivity|]. split; [vm_compute; reflexivity|].
  split; [vm_compute; reflexivity|]. split; [vm_compute; discriminate|].
  split; [reflexivity|]. split; vm_compute; reflexivity.
Qed.

(** *** The scenario batch *)

Ltac run_builder :=
  eexists; eexists; split; [ vm_compute; reflexivity | ];
  split; repeat constructor.

(** C1 (the code at the failing input): the row the loop writes is chosen
    by the index label, [label - 1]. With the labels 0 and 1 of a default
    index, security A (position 0) is written to row -1, the last row,
    and security B to row 0: the call returns N = 2 columns with row 0 =
    cashflows [100, 0], maturities [0.25, 0] and row 1 = cashflows
    [2, 102], maturities [0.5, 1]. The rows of the scenario come out only
    when the labels are 1 and 2. *)
Theorem rows_follow_labels :
  (exists cf mt,
      cashflows_matrix batch_default_index quote_2017 = Ok (cf, mt)
      /\ Meq cf [[100; 0]; [2; 102]]
      /\ Meq mt [[1 # 4; 0]; [1 # 2; 1]])
  /\ (exists cf mt,
         cashflows_matrix batch_from_one quote_2017 = Ok (cf, mt)
         /\ Meq cf [[2; 102]; [100; 0]]
         /\ Meq mt [[1 # 2; 1]; [1 # 4; 0]]).
Proof. split; run_builder. Qed.

(** *** Negative maturities *)

(** C4 (as stated, refuted): the batch of A and a security with time to
    maturity -0.25 raises nothing; the matured security is written like one
    of zero periods, 100 in column 0. *)
Lemma negative_maturity_accepted :
  MATURITY security_matured < 0
  /\ ~ raises (cashflows_matrix [(1%Z, security_A); (2%Z, security_matured)]
                 quote_2017)
  /\ exists cf mt,
      cashflows_matrix [(1%Z, security_A); (2%Z, security_matured)] quote_2017
      = Ok (cf, mt)
      /\ Meq cf [[2; 102]; [100; 0]]
      /\ Meq mt [[1 # 2; 1]; [- (1 # 4); 0]].
Proof.
  split; [reflexivity|]. split.
  - intros [e H]. vm_compute in H. discriminate.
  - run_builder.
Qed.

Lemma semi_periods_negative s :
  MATURITY s <= - (1 # 2) -> (semi_periods s <= -1)%Z.
Proof.
  intros H. unfold semi_periods.
  change (-1)%Z with (Qceiling (inject_Z (-1))) at 1.
  - apply Qceiling_resp_le. rewrite div_half.
    change (inject_Z (-1)) with (- (1)). lra.
Qed.

Lemma loop_body_negative st i s :
  (semi_periods s <= -1)%Z -> raises (loop_body st i s).
Proof.
  intros H. destruct st as [mt cf]. unfold loop_body.
  destruct (Z.eqb_spec (semi_periods s) 0); [lia|].
  destruct (set_item mt (i - 1) (semi_periods s - 1) (MATURITY s)) as [mt1|e];
    cbn [bind]; [|exists e; reflexivity].
  unfold ones. destruct (Z.ltb_spec (semi_periods s - 1) 0); [|lia].
  exists ValueError. reflexivity.
Qed.

Lemma iterrows_negative df :
  Exists (fun lr => MATURITY (snd lr) <= - (1 # 2)) df ->
  forall st, raises (iterrows df st).
Proof.
  induction df as [|[i s] df IH]; intros Hex st.
  - inversion Hex.
  - cbn [iterrows].
    destruct (loop_body st i s) as [st1|e] eqn:Hb; cbn [bind];
      [|exists e; reflexivity].
    apply Exists_cons in Hex. destruct Hex as [Hhd|Htl].
    + cbn [snd] in Hhd.
      destruct (loop_body_negative st i s (semi_periods_negative s Hhd))
        as [e He].
      congruence.
    + apply IH, Htl.
Qed.

(** C4 (amended): the builder has no check of the maturities. A batch
    with a security whose time to maturity is -0.5 or less makes the call
    raise (an IndexError or a ValueError of the array operations) and
    return no arrays. *)
Theorem negative_maturity_raises (df : DataFrame) (quote_date : Z) :
  Exists (fun lr => MATURITY (snd lr) <= - (1 # 2)) df ->
  raises (cashflows_matrix df quote_date).
Proof.
  intros Hex. unfold cashflows_matrix.
  destruct (max_semi_periods df quote_date) as [N|e]; cbn [bind];
    [|exists e; reflexivity].
  destruct (zeros (List.length df) N) as [z|e]; cbn [bind];
    [|exists e; reflexivity].
  destruct (iterrows_negative df Hex (z, z)) as [e He].
  rewrite He. exists e. reflexivity.
Qed.

Lemma negative_maturity_raises_witness :
  Exists (fun lr => MATURITY (snd lr) <= - (1 # 2))
         [(1%Z, security_A); (2%Z, mkRow (quote_2017 - ONE_YEAR) (- (1)) 0)]
  /\ raises (cashflows_matrix
               [(1%Z, security_A); (2%Z, mkRow (quote_2017 - ONE_YEAR) (- (1)) 0)]
               quote_2017).
Proof.
  assert (H : Exists (fun lr => MATURITY (snd lr) <= - (1 # 2))
                [(1%Z, security_A);
                 (2%Z, mkRow (quote_2017 - ONE_YEAR) (- (1)) 0)]).
  { apply Exists_cons_tl, Exists_cons_hd. cbn. unfold Qle. cbn. lia. }
  split; [exact H|].
  exact (negative_maturity_raises _ quote_2017 H).
Defined.

(** *** Arrays without columns *)

Lemma norm_index_error i len e : norm_index i len = Err e -> e = IndexError.
Proof.
  unfold norm_index.
  destruct ((0 <=? i) && (i <? Z.of_nat len))%Z; [discriminate|].
  destruct ((- Z.of_nat len <=? i) && (i <? 0))%Z; [discriminate|].
  congruence.
Qed.

Lemma norm_index_empty i : norm_index i 0 = Err IndexError.
Proof.
  destruct (norm_index i 0) as [k|e] eqn:H.
  - destruct (norm_index_inv _ _ _ H) as [Hk _]. lia.
  - now rewrite (norm_index_error _ _ _ H).
Qed.

Lemma set_item_no_columns a n r c v :
  has_shape a n 0 -> set_item a r c v = Err IndexError.
Proof.
  intros Hs. unfold set_item. pose proof Hs as [Hn _]. rewrite Hn.
  destruct (norm_index r n) as [r'|e] eqn:Hr; cbn [bind].
  - destruct (norm_index_inv _ _ _ Hr) as [Hlt _].
    rewrite (ncols_shape a n 0 r' Hs Hlt), norm_index_empty. reflexivity.
  - now rewrite (norm_index_error _ _ _ Hr).
Qed.

Lemma loop_body_no_columns mt cf n i s :
  has_shape mt n 0 -> loop_body (mt, cf) i s = Err IndexError.
Proof.
  intros Hs. unfold loop_body.
  destruct (semi_periods s =? 0)%Z;
    rewrite (set_item_no_columns mt n _ _ _ Hs); reflexivity.
Qed.

(** When the call returns, the rows written for a security of zero
    periods are 100 and its time to maturity in column 0 and zeros after
    them: the case the loop handles with its first branch. *)
Lemma zero_period_rows (df : DataFrame) (quote_date : Z) (cf mt : matrix) :
  cashflows_matrix df quote_date = Ok (cf, mt) ->
  NoDup (rows_of (List.length df) df) ->
  forall i s, In (i, s) df -> semi_periods s = 0%Z ->
    exists k,
      nth (row_of (List.length df) i) cf [] = 100 :: repeat 0 k
      /\ nth (row_of (List.length df) i) mt [] = MATURITY s :: repeat 0 k.
Proof.
  intros H Hnd i s Hin Hp.
  destruct (cashflows_matrix_inv _ _ _ _ H) as [N [_ [_ Hit]]].
  destruct (iterrows_inv _ _ _ _ _ _ _ Hit
              (has_shape_zeros _ _) (has_shape_zeros _ _)) as [_ [_ [_ Hrows]]].
  destruct (Hrows Hnd i s Hin) as [Hlt [_ [Hm [Hcf Hmt]]]].
  rewrite Hcf, Hmt, nth_repeat_lt by exact Hlt.
  unfold cash_row, time_row. rewrite Hp. cbn [Z.eqb].
  destruct (Z.to_nat N) as [|k]; [lia|].
  exists k. split; reflexivity.
Qed.

(** C7 (the code at the failing input): when the column count is 0, as
    for a batch whose securities all have time to maturity 0, the arrays
    have no column 0 to hold the 100, and the first turn of the loop raises
    IndexError: the call returns no arrays. *)
Theorem zero_columns_raise (df : DataFrame) (quote_date : Z) :
  df <> [] ->
  max_semi_periods df quote_date = Ok 0%Z ->
  cashflows_matrix df quote_date = Err IndexError.
Proof.
  intros Hne HN. unfold cashflows_matrix. rewrite HN. cbn [bind zeros Z.ltb Z.compare].
  destruct df as [|[i s] df]; [congruence|].
  cbn [iterrows].
  rewrite (loop_body_no_columns _ _ (List.length ((i, s) :: df)) i s
             (has_shape_zeros _ 0)).
  reflexivity.
Qed.

Lemma zero_columns_raise_witness :
  [(1%Z, security_due)] <> []
  /\ max_semi_periods [(1%Z, security_due)] quote_2017 = Ok 0%Z
  /\ semi_periods security_due = 0%Z
  /\ cashflows_matrix [(1%Z, security_due)] quote_2017 = Err IndexError.
Proof.
  split; [discriminate|]. split; [reflexivity|]. split; [reflexivity|].
  exact (zero_columns_raise [(1%Z, security_due)] quote_2017
           ltac:(discriminate) eq_refl).
Defined.

(** *** Instances of the general statements on the scenario batch *)

Lemma batch_from_one_run :
  cashflows_matrix batch_from_one quote_2017
  = Ok ([[4 # 2; 204 # 2]; [200 # 2; 0]], [[1 # 2; 1]; [1 # 4; 0]]).
Proof. vm_compute. reflexivity. Qed.

Lemma batch_from_one_columns :
  max_semi_periods batch_from_one quote_2017 = Ok 2%Z.
Proof. vm_compute. reflexivity. Qed.

Lemma batch_from_one_rows :
  NoDup (rows_of (List.length batch_from_one) batch_from_one).
Proof. cbn. repeat constructor; cbn; intuition discriminate. Qed.


(** * Further properties of the parser *)

Local Open Scope string_scope.

(** ** The exceptions of [to_decimal_price] *)

Lemma dict_get_has {V : Type} (d : list (Z * V)) k :
  dict_has d k = true -> exists v, dict_get d k = Ok v.
Proof.
  induction d as [|[k' v] d IH]; cbn; [discriminate|].
  destruct (k =? k')%Z; cbn; [eexists; reflexivity|exact IH].
Qed.

Lemma str_get_in_range s n :
  (n < String.length s)%nat -> exists c, str_get s n = Ok c.
Proof.
  revert n. unfold str_get.
  induction s as [|c s IH]; intros [|n] H; cbn in *; try lia.
  - eexists. reflexivity.
  - apply IH. lia.
Qed.

Lemma ticks_and_partial_error p1 e :
  ticks_and_partial p1 = Err e -> e = ValueError \/ e = AssertionError.
Proof.
  unfold ticks_and_partial.
  destruct (py_int (slice_to 2 p1)) as [t|e1] eqn:Ht; cbn [bind].
  2:{ intros [= <-]. left. exact (py_int_error _ _ Ht). }
  destruct (t <? 32)%Z; cbn [bind py_assert]; [|intros [= <-]; auto].
  destruct (Nat.ltb_spec 2 (String.length p1)) as [Hlen|Hlen].
  - destruct (str_get_in_range p1 2 Hlen) as [c ->]. cbn [bind].
    destruct (py_int (String c "")) as [pt|e1] eqn:Hp; cbn [bind].
    2:{ intros [= <-]. left. exact (py_int_error _ _ Hp). }
    destruct (dict_has partial_tick_value pt) eqn:Hd; cbn [bind py_assert];
      [discriminate | intros [= <-]; auto].
  - cbn [bind]. discriminate.
Qed.

Lemma ticks_and_partial_checked p1 t pt :
  ticks_and_partial p1 = Ok (t, pt) ->
  py_int (slice_to 2 p1) = Ok t /\ (t < 32)%Z
  /\ dict_has partial_tick_value pt = true.
Proof.
  unfold ticks_and_partial.
  destruct (py_int (slice_to 2 p1)) as [t'|]; cbn [bind]; [|discriminate].
  destruct (Z.ltb_spec t' 32); cbn [bind py_assert]; [|discriminate].
  destruct (if (2 <? String.length p1)%nat
            then c <- str_get p1 2; py_int (String c "")
            else Ok 0%Z) as [pt'|]; cbn [bind]; [|discriminate].
  destruct (dict_has partial_tick_value pt') eqn:Hd; cbn [bind py_assert];
    [|discriminate].
  intros [= <- <-]. auto.
Qed.

(** ** The exceptions of the arithmetic *)

Lemma checked_error f e : checked f = Err e -> e = OverflowError.
Proof. destruct f; cbn [checked]; congruence. Qed.

Lemma int_truediv_error a e : int_truediv a 32 = Err e -> e = OverflowError.
Proof.
  unfold int_truediv. change (32 =? 0)%Z with false. cbv iota.
  destruct (a =? 0)%Z; [discriminate|].
  destruct (SFdiv_core_binary prec emax (Z.abs a) 0 (Z.abs 32) 0) as [[m e'] l].
  apply checked_error.
Qed.

Lemma digit_of_range c d : digit_of c = Some d -> (0 <= d <= 9)%Z.
Proof.
  unfold digit_of.
  destruct ((48 <=? N_of_ascii c) && (N_of_ascii c <=? 57))%N eqn:H;
    [|discriminate].
  intros [= <-]. apply andb_prop in H. destruct H as [H1 H2].
  apply N.leb_le in H1, H2. lia.
Qed.

(** A literal of [n] characters stands for a number below 10^n. *)
Lemma digits_tail_bound n : forall s acc v,
  (String.length s <= n)%nat -> (0 <= acc)%Z ->
  digits_tail acc s = Some v ->
  (0 <= v < (acc + 1) * 10 ^ Z.of_nat (String.length s))%Z.
Proof.
  induction n as [|n IH]; intros s acc v Hlen Hacc H.
  - destruct s; [|cbn in Hlen; lia]. cbn in H. injection H as <-. cbn. lia.
  - destruct s as [|c s']; [cbn in H; injection H as <-; cbn; lia|].
    cbn [String.length] in *. rewrite Nat2Z.inj_succ, Z.pow_succ_r by lia.
    assert (Hp : forall k : nat, (1 <= 10 ^ Z.of_nat k)%Z)
      by (intros k; pose proof (Z.pow_pos_nonneg 10 (Z.of_nat k)); lia).
    cbn [digits_tail] in H.
    destruct (digit_of c) as [d|] eqn:Hc.
    + pose proof (digit_of_range _ _ Hc).
      pose proof (IH s' (10 * acc + d)%Z v ltac:(lia) ltac:(lia) H).
      pose proof (Hp (String.length s')). nia.
    + destruct (Ascii.eqb c "_").
      * destruct s' as [|c' s'']; [discriminate|].
        destruct (digit_of c') as [d|] eqn:Hc'; [|discriminate].
        pose proof (digit_of_range _ _ Hc').
        pose proof (IH s'' (10 * acc + d)%Z v
                      ltac:(cbn [String.length] in Hlen; lia) ltac:(lia) H).
        cbn [String.length]. rewrite Nat2Z.inj_succ, Z.pow_succ_r by lia.
        pose proof (Hp (String.length s'')). nia.
      * destruct (all_space (String c s')); [|discriminate].
        injection H as <-. pose proof (Hp (String.length s')). nia.
Qed.

Lemma lstrip_length s : (String.length (lstrip s) <= String.length s)%nat.
Proof.
  induction s as [|c s IH]; cbn [lstrip String.length]; [lia|].
  destruct (is_space c); cbn [String.length]; lia.
Qed.

Lemma py_int_bound s v :
  py_int s = Ok v -> (Z.abs v < 10 ^ Z.of_nat (String.length s))%Z.
Proof.
  unfold py_int. pose proof (lstrip_length s) as Hl.
  assert (Hmono : forall a b : nat, (a <= b)%nat ->
                    (10 ^ Z.of_nat a <= 10 ^ Z.of_nat b)%Z)
    by (intros a b Hab; apply Z.pow_le_mono_r; lia).
  assert (Hgen : forall (sign : Z) s2,
             (sign = 1 \/ sign = -1)%Z ->
             (String.length s2 <= String.length s)%nat ->
             match s2 with
             | String c r =>
                 match digit_of c with
                 | Some d =>
                     match digits_tail d r with
                     | Some v => Ok (sign * v)%Z
                     | None => Err ValueError
                     end
                 | None => Err ValueError
                 end
             | EmptyString => Err ValueError
             end = Ok v ->
             (Z.abs v < 10 ^ Z.of_nat (String.length s))%Z).
  { intros sign s2 Hs Hlen H. destruct s2 as [|c r]; [discriminate|].
    destruct (digit_of c) as [d|] eqn:Hc; [|discriminate].
    destruct (digits_tail d r) as [w|] eqn:Hw; [|discriminate].
    injection H as <-. pose proof (digit_of_range _ _ Hc).
    pose proof (digits_tail_bound _ r d w (Nat.le_refl _) ltac:(lia) Hw) as Hb.
    cbn [String.length] in Hlen. pose proof (Hmono _ _ Hlen) as Hm.
    rewrite Nat2Z.inj_succ, Z.pow_succ_r in Hm by lia.
    assert (1 <= 10 ^ Z.of_nat (String.length r))%Z
      by (pose proof (Z.pow_pos_nonneg 10 (Z.of_nat (String.length r))); lia).
    destruct Hs as [-> | ->]; nia. }
  destruct (lstrip s) as [|c r] eqn:Hs; [discriminate|].
  cbn [String.length] in Hl.
  destruct (Ascii.eqb_spec c "+") as [-> | Hplus].
  - apply (Hgen 1%Z r); [auto | lia].
  - destruct (Ascii.eqb_spec c "-") as [-> | Hminus].
    + apply (Hgen (-1)%Z r); [auto | lia].
    + intros H. apply (Hgen 1%Z (String c r)); [auto | cbn [String.length]; lia |].
      destruct c as [[] [] [] [] [] [] [] []]; try exact H; congruence.
Qed.

Lemma slice_to_length k s : (String.length (slice_to k s) <= k)%nat.
Proof.
  unfold slice_to. revert s. induction k as [|k IH]; intros s.
  - destruct s; cbn; lia.
  - destruct s as [|c s]; cbn [substring String.length]; [lia|].
    specialize (IH s). lia.
Qed.

(** The quotient by 32 of a tick field of two characters is a float. *)
Lemma int_truediv_ticks t :
  (-99 <= t <= 31)%Z -> exists q, int_truediv t 32 = Ok q.
Proof.
  intros H.
  destruct (small_nat (t + 99) 131) as [k [Hk Hkt]]; [lia|].
  assert (Ht : t = (Z.of_nat k - 99)%Z) by lia. subst t. clear Hkt H.
  do 131 (destruct k as [|k]; [ eexists; vm_compute; reflexivity | ]).
  lia.
Qed.

(** An int below 2^53 in magnitude is a float. *)
Lemma float_of_int_small h :
  (Z.abs h < 2 ^ 53)%Z -> exists f, float_of_int h = Ok f.
Proof.
  intros Hh. unfold float_of_int, of_dyadic.
  destruct (signed_cases h) as [-> | [s [p [-> Habs]]]];
    [eexists; reflexivity|].
  rewrite Habs in Hh.
  pose proof (digits2_le p 53 ltac:(lia) Hh) as Hd.
  assert (Hq : (0 < Z.pos p * 2 ^ (53 - Z.pos (digits2_pos p)))%Z)
    by (apply Z.mul_pos_pos; [lia | apply Z.pow_pos_nonneg; lia]).
  exists (S754_finite s (Z.to_pos (Z.pos p * 2 ^ (53 - Z.pos (digits2_pos p))))
            (Z.pos (digits2_pos p) - 53)).
  assert (Hr : binary_round prec emax s p 0
               = S754_finite s
                   (Z.to_pos (Z.pos p * 2 ^ (53 - Z.pos (digits2_pos p))))
                   (Z.pos (digits2_pos p) - 53)).
  { apply binary_round_exact.
    - unfold fexp, emin, prec, emax. lia.
    - unfold emax, prec. lia.
    - left. split; [lia|]. rewrite Z2Pos.id by exact Hq. f_equal. f_equal. lia. }
  destruct s; cbn [cond_Zopp Z.opp binary_normalize]; rewrite Hr; reflexivity.
Qed.

Lemma price_error h t pt e :
  dict_has partial_tick_value pt = true ->
  price h t pt = Err e ->
  e = OverflowError
  /\ ((-99 <= t <= 31)%Z -> (2 ^ 53 <= Z.abs h)%Z).
Proof.
  intros Hd. unfold price, int_add_float.
  destruct (dict_get_has _ _ Hd) as [v Hv].
  destruct (int_truediv t 32) as [q|e1] eqn:Hq; cbn [bind].
  - destruct (float_of_int h) as [f|e1] eqn:Hf; cbn [bind].
    + rewrite Hv. discriminate.
    + intros [= <-]. split; [exact (checked_error _ _ Hf)|].
      intros _. destruct (Z.le_gt_cases (2 ^ 53) (Z.abs h)) as [Hle|Hgt];
        [exact Hle|].
      destruct (float_of_int_small h Hgt) as [f Hf']. congruence.
  - intros [= <-]. split; [exact (int_truediv_error _ _ Hq)|].
    intros Ht. destruct (int_truediv_ticks t Ht) as [q Hq']. congruence.
Qed.

Lemma split_cons_not_sep c s :
  Ascii.eqb c "'" = false ->
  exists p ps, split "'" s = p :: ps /\ split "'" (String c s) = String c p :: ps.
Proof.
  intros Hc. cbn [split]. rewrite Hc.
  destruct (split "'" s) as [|p ps] eqn:Hs; [elim (split_nonempty _ _ Hs)|].
  exists p, ps. auto.
Qed.

Lemma split_with_sep s :
  sep_free s = false -> exists p0 p1 rest, split "'" s = p0 :: p1 :: rest.
Proof.
  induction s as [|c s IH]; cbn [sep_free split]; [discriminate|].
  destruct (Ascii.eqb c "'") eqn:Hc; cbn [negb andb].
  - intros _. destruct (split "'" s) as [|p ps] eqn:Hs;
      [elim (split_nonempty _ _ Hs)|].
    exists "", p, ps. reflexivity.
  - intros H. destruct (IH H) as [p0 [p1 [rest ->]]].
    exists (String c p0), p1, rest. reflexivity.
Qed.

Lemma to_decimal_price_error s e :
  to_decimal_price s = Err e ->
  e = ValueError \/ e = IndexError \/ e = AssertionError
  \/ (e = OverflowError
      /\ exists p0 p1 rest h,
           split "'" s = p0 :: p1 :: rest /\ py_int p0 = Ok h
           /\ (2 ^ 53 <= Z.abs h)%Z).
Proof.
  destruct (sep_free s) eqn:Hs.
  - rewrite (to_decimal_price_no_sep _ Hs).
    destruct (py_int s) as [h|e1] eqn:Hh; cbn [bind]; intros [= <-]; auto.
    left. exact (py_int_error _ _ Hh).
  - destruct (split_with_sep _ Hs) as [p0 [p1 [rest Hsp]]].
    rewrite (to_decimal_price_parts _ _ _ _ Hsp).
    destruct (py_int p0) as [h|e1] eqn:Hh; cbn [bind].
    2:{ intros [= <-]. left. exact (py_int_error _ _ Hh). }
    destruct (ticks_and_partial p1) as [[t pt]|e1] eqn:Ht; cbn [bind fst snd].
    2:{ intros [= <-]. destruct (ticks_and_partial_error _ _ Ht); auto. }
    intros Hp.
    destruct (ticks_and_partial_checked _ _ _ Ht) as [Hti [Hlt Hd]].
    destruct (price_error _ _ _ _ Hd Hp) as [-> Hbig].
    right. right. right. split; [reflexivity|].
    exists p0, p1, rest, h. split; [exact Hsp|]. split; [exact Hh|].
    apply Hbig. pose proof (py_int_bound _ _ Hti) as Hb.
    pose proof (slice_to_length 2 p1) as Hl.
    assert (10 ^ Z.of_nat (String.length (slice_to 2 p1)) <= 10 ^ 2)%Z
      by (apply Z.pow_le_mono_r; lia).
    lia.
Qed.

(** X1: the call raises ValueError, IndexError, AssertionError or
    OverflowError and nothing else. The lookup in [partial_tick_value]
    never raises the KeyError of a missing key, because the [assert]
    before it has checked the key. OverflowError comes from the handle
    alone, when it is too large for a float: never from a handle below
    2^53 in magnitude. *)
Theorem to_decimal_price_exceptions (s : string) (e : exn) :
  to_decimal_price s = Err e ->
  (e = ValueError \/ e = IndexError \/ e = AssertionError
   \/ e = OverflowError)
  /\ e <> KeyError /\ e <> ZeroDivisionError
  /\ (e = OverflowError ->
      exists p0 p1 rest h,
        split "'" s = p0 :: p1 :: rest /\ py_int p0 = Ok h
        /\ (2 ^ 53 <= Z.abs h)%Z).
Proof.
  intros H.
  destruct (to_decimal_price_error s e H) as [-> | [-> | [-> | [-> Hbig]]]].
  - split; [auto|]. repeat split; discriminate.
  - split; [auto|]. repeat split; discriminate.
  - split; [auto|]. repeat split; discriminate.
  - split; [auto 6|]. split; [discriminate|]. split; [discriminate|].
    intros _. exact Hbig.
Qed.

Lemma to_decimal_price_exceptions_witness :
  to_decimal_price "99'163" = Err AssertionError
  /\ (AssertionError = ValueError \/ AssertionError = IndexError
      \/ AssertionError = AssertionError \/ AssertionError = OverflowError)
  /\ AssertionError <> KeyError.
Proof.
  split; [reflexivity|].
  pose proof (to_decimal_price_exceptions "99'163" AssertionError eq_refl)
    as [H1 [H2 _]].
  exact (conj H1 H2).
Defined.

(** X2: the call raises IndexError exactly when the token has no
    separator and is, as a whole, an integer literal of [int()]: the
    character index 2 is only read after the length has been checked. *)
Theorem index_error_without_separator (s : string) :
  to_decimal_price s = Err IndexError
  <-> sep_free s = true /\ exists h, py_int s = Ok h.
Proof.
  split.
  - destruct (sep_free s) eqn:Hs.
    + rewrite (to_decimal_price_no_sep _ Hs).
      destruct (py_int s) as [h|e1] eqn:Hh; cbn [bind].
      * intros _. split; [reflexivity|]. exists h. reflexivity.
      * intros [= ->]. pose proof (py_int_error _ _ Hh). discriminate.
    + destruct (split_with_sep _ Hs) as [p0 [p1 [rest Hsp]]].
      rewrite (to_decimal_price_parts _ _ _ _ Hsp).
      destruct (py_int p0) as [h|e1] eqn:Hh; cbn [bind].
      2:{ intros [= ->]. pose proof (py_int_error _ _ Hh). discriminate. }
      destruct (ticks_and_partial p1) as [[t pt]|e1] eqn:Ht; cbn [bind fst snd].
      * intros Hp.
        destruct (ticks_and_partial_checked _ _ _ Ht) as [_ [_ Hd]].
        destruct (price_error _ _ _ _ Hd Hp) as [He _]. discriminate.
      * intros [= ->].
        destruct (ticks_and_partial_error _ _ Ht); discriminate.
  - intros [Hs [h Hh]]. rewrite (to_decimal_price_no_sep _ Hs), Hh. reflexivity.
Qed.

Lemma index_error_without_separator_witness :
  to_decimal_price "9916" = Err IndexError.
Proof.
  apply (proj2 (index_error_without_separator "9916")).
  split; [reflexivity|]. exists 9916%Z. reflexivity.
Defined.

(** ** Well-formed tokens and their neighbours *)

Lemma py_int_single c :
  py_int (String c "")
  = match digit_of c with Some d => Ok d | None => Err ValueError end.
Proof.
  destruct c as [[] [] [] [] [] [] [] []]; vm_compute; reflexivity.
Qed.

Lemma digit_char_not_sep z :
  (0 <= z <= 9)%Z -> Ascii.eqb (digit_char z) "'" = false.
Proof.
  intros H. destruct (small_nat z 10) as [k [Hk ->]]; [lia|].
  do 10 (destruct k as [|k]; [reflexivity|]). lia.
Qed.

Lemma py_int_two_digits ticks :
  (0 <= ticks <= 31)%Z -> py_int (two_digits ticks) = Ok ticks.
Proof.
  intros H. destruct (small_nat ticks 32) as [k [Hk ->]]; [lia|].
  do 32 (destruct k as [|k]; [reflexivity|]). lia.
Qed.

Lemma uint_digits d :
  d <> Decimal.Nil ->
  exists c r dv,
    NilEmpty.string_of_uint d = String c r
    /\ digit_of c = Some dv
    /\ digits_tail dv r = Some (Z.of_N (N.of_uint d)).
Proof.
  intros Hd. unfold N.of_uint.
  destruct d; [congruence | ..];
    cbn [NilEmpty.string_of_uint Pos.of_uint];
    (eexists; eexists; eexists; split; [reflexivity|];
     split; [vm_compute; reflexivity|]);
    first [ apply digits_tail_zero | apply (digits_tail_pos d) ].
Qed.

Lemma py_int_minus_uint d :
  d <> Decimal.Nil ->
  py_int (String "-" (NilEmpty.string_of_uint d)) = Ok (- Z.of_N (N.of_uint d))%Z.
Proof.
  intros Hd. destruct (uint_digits d Hd) as [c [r [dv [-> [Hc Hr]]]]].
  unfold py_int. cbn [lstrip]. change (is_space "-") with false. cbv iota.
  rewrite Hc, Hr. f_equal; lia.
Qed.

Lemma quote_token_split handle ticks tail :
  (0 <= ticks <= 31)%Z -> sep_free tail = true ->
  split "'" (NilEmpty.string_of_uint handle
             ++ String "'" (two_digits ticks ++ tail))
  = [NilEmpty.string_of_uint handle; two_digits ticks ++ tail].
Proof.
  intros Ht Htail. apply split_one_sep; [apply sep_free_uint|].
  unfold two_digits. cbn [append sep_free].
  rewrite !digit_char_not_sep, Htail; [reflexivity | |].
  - pose proof (Z.mod_pos_bound ticks 10). lia.
  - pose proof (Z.div_pos ticks 10).
    assert (ticks / 10 < 10)%Z by (apply Z.div_lt_upper_bound; lia). lia.
Qed.

Lemma quote_token_price handle ticks f :
  handle <> Decimal.Nil -> (Z.of_N (N.of_uint handle) < 2 ^ 46)%Z ->
  (0 <= ticks <= 31)%Z ->
  to_decimal_price (quote_token handle ticks f)
  = Ok (grid (128 * Z.of_N (N.of_uint handle) + 4 * ticks + frac_units f)).
Proof.
  intros Hh Hb Ht. unfold quote_token.
  assert (Hf : sep_free (frac_string f) = true)
    by (destruct f as [[]|]; reflexivity).
  rewrite (to_decimal_price_parts _ _ _ []
             (quote_token_split handle ticks (frac_string f) Ht Hf)).
  rewrite (py_int_uint _ Hh), (ticks_and_partial_well_formed _ _ Ht).
  cbn [bind fst snd]. apply price_grid; lia.
Qed.

Lemma returns_grid_inv (K : Z) (v : Q) :
  (Z.abs K < 2 ^ 53)%Z -> returns (Ok (grid K)) v -> v == inject_Z K / 128.
Proof.
  intros HK Hv. pose proof (grid_value K HK) as Hg. cbn [returns] in *.
  destruct (float_value (grid K)); [|contradiction]. rewrite <- Hv, Hg.
  reflexivity.
Qed.

(** The price of a well-formed token, in 128ths. *)
Lemma quote_token_units handle ticks f v :
  handle <> Decimal.Nil -> (Z.of_N (N.of_uint handle) < 2 ^ 46)%Z ->
  (0 <= ticks <= 31)%Z ->
  returns (to_decimal_price (quote_token handle ticks f)) v ->
  v == inject_Z (128 * Z.of_N (N.of_uint handle) + 4 * ticks + frac_units f)
       / 128.
Proof.
  intros Hh Hb Ht Hv. pose proof (frac_units_range f).
  rewrite (quote_token_price _ _ _ Hh Hb Ht) in Hv.
  apply returns_grid_inv; [lia | exact Hv].
Qed.

Lemma units_unique (K1 K2 : Z) (v : Q) :
  v == inject_Z K1 / 128 -> v == inject_Z K2 / 128 -> K1 = K2.
Proof.
  intros H1 H2. apply inject_Z_injective.
  assert (Hm : forall x y : Q, x / 128 == y / 128 -> x == y).
  { intros x y Hxy.
    rewrite <- (Qmult_div_r x 128), <- (Qmult_div_r y 128), Hxy by discriminate.
    reflexivity. }
  apply Hm. rewrite <- H1, <- H2. reflexivity.
Qed.

(** X3: the third character after the separator is checked in two steps.
    After a handle in decimal digits and two tick digits for 0..31, a
    third character that is not a decimal digit (and not the separator)
    makes the call raise the ValueError of [int()], and a digit other than
    0, 2, 5, 7 the AssertionError of the [assert] on the table keys,
    whatever follows the character. *)
Theorem fraction_digit_checked
  (handle : Decimal.uint) (ticks : Z) (c : ascii) (tail : string) :
  handle <> Decimal.Nil -> (0 <= ticks <= 31)%Z ->
  Ascii.eqb c "'" = false ->
  (digit_of c = None ->
   to_decimal_price (NilEmpty.string_of_uint handle
                     ++ String "'" (two_digits ticks ++ String c tail))
   = Err ValueError)
  /\ (forall d, digit_of c = Some d ->
        d <> 0%Z -> d <> 2%Z -> d <> 5%Z -> d <> 7%Z ->
        to_decimal_price (NilEmpty.string_of_uint handle
                          ++ String "'" (two_digits ticks ++ String c tail))
        = Err AssertionError).
Proof.
  intros Hh Ht Hc.
  destruct (split_cons_not_sep c tail Hc) as [p [ps [_ Hsp]]].
  assert (Hd1 : Ascii.eqb (digit_char (ticks mod 10)) "'" = false).
  { apply digit_char_not_sep. pose proof (Z.mod_pos_bound ticks 10). lia. }
  assert (Hd0 : Ascii.eqb (digit_char (ticks / 10)) "'" = false).
  { apply digit_char_not_sep. pose proof (Z.div_pos ticks 10).
    assert (ticks / 10 < 10)%Z by (apply Z.div_lt_upper_bound; lia). lia. }
  assert (Hsplit :
            split "'" (NilEmpty.string_of_uint handle
                       ++ String "'" (two_digits ticks ++ String c tail))
            = NilEmpty.string_of_uint handle
              :: (two_digits ticks ++ String c p) :: ps).
  { rewrite (split_app _ _ (sep_free_uint handle)). f_equal.
    unfold two_digits. cbn [append split]. rewrite Hd0, Hd1.
    cbn [split] in Hsp. rewrite Hc in Hsp. rewrite Hc.
    destruct (split "'" tail) as [|q qs]; injection Hsp as <- <-; reflexivity. }
  rewrite (to_decimal_price_parts _ _ _ _ Hsplit), (py_int_uint _ Hh).
  cbn [bind]. unfold ticks_and_partial, two_digits. cbn [append slice_to substring].
  fold (two_digits ticks). rewrite (py_int_two_digits _ Ht). cbn [bind].
  replace (ticks <? 32)%Z with true by (symmetry; apply Z.ltb_lt; lia).
  cbn [py_assert bind String.length Nat.ltb Nat.leb str_get String.get].
  rewrite py_int_single. split.
  - intros ->. reflexivity.
  - intros d -> H0 H2 H5 H7. cbn [bind dict_has existsb partial_tick_value fst].
    apply Z.eqb_neq in H0, H2, H5, H7. rewrite H0, H2, H5, H7. reflexivity.
Qed.

Lemma fraction_digit_checked_witness :
  Decimal.D9 (Decimal.D9 Decimal.Nil) <> Decimal.Nil
  /\ (0 <= 16 <= 31)%Z
  /\ Ascii.eqb "3" "'" = false
  /\ to_decimal_price "99'163" = Err AssertionError
  /\ to_decimal_price "99'16+" = Err ValueError.
Proof.
  split; [discriminate|]. split; [lia|]. split; [reflexivity|]. split.
  - exact (proj2 (fraction_digit_checked (Decimal.D9 (Decimal.D9 Decimal.Nil))
                    16%Z "3" "" ltac:(discriminate) ltac:(lia) eq_refl)
             3%Z eq_refl ltac:(discriminate) ltac:(discriminate)
             ltac:(discriminate) ltac:(discriminate)).
  - exact (proj1 (fraction_digit_checked (Decimal.D9 (Decimal.D9 Decimal.Nil))
                    16%Z "+" "" ltac:(discriminate) ltac:(lia) eq_refl)
             eq_refl).
Defined.

(** X4: below 2^46 the conversion of well-formed tokens loses nothing:
    two tokens [handle'ticks[frac]] with handles below 2^46 and the same
    price have the same handle value, the same tick count and fraction
    codes of the same value (no code and the code 0 both stand for
    none). *)
Theorem quote_price_lossless
  (h1 h2 : Decimal.uint) (t1 t2 : Z) (f1 f2 : option frac_code) (v : Q) :
  h1 <> Decimal.Nil -> h2 <> Decimal.Nil ->
  (Z.of_N (N.of_uint h1) < 2 ^ 46)%Z -> (Z.of_N (N.of_uint h2) < 2 ^ 46)%Z ->
  (0 <= t1 <= 31)%Z -> (0 <= t2 <= 31)%Z ->
  returns (to_decimal_price (quote_token h1 t1 f1)) v ->
  returns (to_decimal_price (quote_token h2 t2 f2)) v ->
  N.of_uint h1 = N.of_uint h2 /\ t1 = t2 /\ frac_value f1 == frac_value f2.
Proof.
  intros Hh1 Hh2 Hb1 Hb2 Ht1 Ht2 H1 H2.
  pose proof (quote_token_units _ _ _ _ Hh1 Hb1 Ht1 H1) as Hq1.
  pose proof (quote_token_units _ _ _ _ Hh2 Hb2 Ht2 H2) as Hq2.
  pose proof (units_unique _ _ _ Hq1 Hq2) as Heq.
  pose proof (frac_units_range f1). pose proof (frac_units_range f2).
  assert (Hk : frac_units f1 = frac_units f2) by lia.
  split; [lia|]. split; [lia|].
  rewrite !frac_units_value, Hk. reflexivity.
Qed.

Lemma quote_price_lossless_witness :
  returns (to_decimal_price
             (quote_token (Decimal.D9 (Decimal.D9 Decimal.Nil)) 16 None)) 99.5
  /\ returns (to_decimal_price
                (quote_token (Decimal.D0 (Decimal.D9 (Decimal.D9 Decimal.Nil)))
                   16 (Some F0))) 99.5
  /\ N.of_uint (Decimal.D9 (Decimal.D9 Decimal.Nil))
     = N.of_uint (Decimal.D0 (Decimal.D9 (Decimal.D9 Decimal.Nil)))
  /\ 16%Z = 16%Z
  /\ frac_value None == frac_value (Some F0).
Proof.
  assert (H1 : returns (to_decimal_price
                          (quote_token (Decimal.D9 (Decimal.D9 Decimal.Nil))
                             16 None)) 99.5)
    by (vm_compute; reflexivity).
  assert (H2 : returns (to_decimal_price
                          (quote_token
                             (Decimal.D0 (Decimal.D9 (Decimal.D9 Decimal.Nil)))
                             16 (Some F0))) 99.5)
    by (vm_compute; reflexivity).
  split; [exact H1|]. split; [exact H2|].
  exact (quote_price_lossless
           (Decimal.D9 (Decimal.D9 Decimal.Nil))
           (Decimal.D0 (Decimal.D9 (Decimal.D9 Decimal.Nil)))
           16%Z 16%Z None (Some F0) 99.5
           ltac:(discriminate) ltac:(discriminate)
           ltac:(reflexivity) ltac:(reflexivity) ltac:(lia) ltac:(lia)
           H1 H2).
Defined.

Lemma floor_of_grid (H r : Z) (v : Q) :
  (0 <= r < 128)%Z -> v == inject_Z (128 * H + r) / 128 ->
  Qfloor v = H /\ inject_Z H <= v /\ v < inject_Z H + 1.
Proof.
  intros Hr Hv.
  assert (Hq : v == (128 * H + r) # 128).
  { rewrite Hv. generalize (128 * H + r)%Z. intros M.
    unfold Qeq, Qdiv, Qmult, Qinv, inject_Z. cbn -[Z.mul]. lia. }
  split; [|split].
  - rewrite Hq. cbn [Qfloor].
    symmetry. apply (Z.div_unique (128 * H + r) 128 H r); lia.
  - rewrite Hq. unfold Qle, inject_Z. cbn -[Z.mul]. lia.
  - rewrite Hq. unfold Qlt, Qplus, inject_Z. cbn -[Z.mul]. lia.
Qed.

(** X5: below 2^46 the handle is the whole part of the price: for a
    well-formed token with a handle below 2^46 the price lies from the
    handle up to, but not at, the next point, so its floor is the
    handle. *)
Theorem handle_is_floor
  (handle : Decimal.uint) (ticks : Z) (f : option frac_code) (v : Q) :
  handle <> Decimal.Nil -> (Z.of_N (N.of_uint handle) < 2 ^ 46)%Z ->
  (0 <= ticks <= 31)%Z ->
  returns (to_decimal_price (quote_token handle ticks f)) v ->
  Qfloor v = Z.of_N (N.of_uint handle)
  /\ inject_Z (Z.of_N (N.of_uint handle)) <= v
  /\ v < inject_Z (Z.of_N (N.of_uint handle)) + 1.
Proof.
  intros Hh Hb Ht Hv.
  pose proof (quote_token_units _ _ _ _ Hh Hb Ht Hv) as Hq.
  pose proof (frac_units_range f) as Hf.
  apply (floor_of_grid _ (4 * ticks + frac_units f)); [lia|].
  rewrite Hq.
  replace (128 * Z.of_N (N.of_uint handle) + (4 * ticks + frac_units f))%Z
    with (128 * Z.of_N (N.of_uint handle) + 4 * ticks + frac_units f)%Z by lia.
  reflexivity.
Qed.

Lemma handle_is_floor_witness :
  returns (to_decimal_price
             (quote_token (Decimal.D1 (Decimal.D0 (Decimal.D0 Decimal.Nil)))
                31 (Some F7))) (12927 # 128)
  /\ Qfloor (12927 # 128) = 100%Z
  /\ 100 <= 12927 # 128 /\ 12927 # 128 < 100 + 1.
Proof.
  assert (H : returns (to_decimal_price
                         (quote_token
                            (Decimal.D1 (Decimal.D0 (Decimal.D0 Decimal.Nil)))
                            31 (Some F7))) (12927 # 128))
    by (vm_compute; reflexivity).
  split; [exact H|].
  exact (handle_is_floor (Decimal.D1 (Decimal.D0 (Decimal.D0 Decimal.Nil)))
           31%Z (Some F7) (12927 # 128)
           ltac:(discriminate) ltac:(reflexivity) ltac:(lia) H).
Defined.

(** X6: only the first two parts of the split are read: whatever follows
    a second separator changes nothing, neither the price nor the
    exception. *)
Theorem later_parts_ignored (h t r : string) :
  sep_free h = true -> sep_free t = true ->
  to_decimal_price (h ++ String "'" (t ++ String "'" r))
  = to_decimal_price (h ++ String "'" t).
Proof.
  intros Hh Ht.
  destruct (split "'" r) as [|q qs] eqn:Hr; [elim (split_nonempty _ _ Hr)|].
  rewrite (to_decimal_price_parts _ h t (q :: qs)).
  - rewrite (to_decimal_price_parts _ h t [] (split_one_sep _ _ Hh Ht)).
    reflexivity.
  - rewrite (split_app _ _ Hh), (split_app _ _ Ht), Hr. reflexivity.
Qed.

Lemma later_parts_ignored_witness :
  sep_free "99" = true /\ sep_free "162" = true
  /\ to_decimal_price ("99" ++ String "'" ("162" ++ String "'" "x'y"))
     = to_decimal_price ("99" ++ String "'" "162").
Proof.
  split; [reflexivity|]. split; [reflexivity|].
  exact (later_parts_ignored "99" "162" "x'y" eq_refl eq_refl).
Defined.

Lemma single_digit_field (d : Z) :
  (0 <= d <= 9)%Z ->
  ticks_and_partial (String (digit_char d) "") = Ok (d, 0%Z).
Proof.
  intros Hd. destruct (small_nat d 10) as [k [Hk ->]]; [lia|].
  do 10 (destruct k as [|k]; [ vm_compute; reflexivity | ]).
  lia.
Qed.

(** X7: the tick field may be shorter than two characters: after a
    handle below 2^46 in decimal digits a single digit [d] is read as [d]
    ticks and the price is handle + d/32, while an empty tick field makes
    the call raise ValueError, whatever the handle. *)
Theorem short_tick_field (handle : Decimal.uint) (d : Z) :
  handle <> Decimal.Nil -> (0 <= d <= 9)%Z ->
  ((Z.of_N (N.of_uint handle) < 2 ^ 46)%Z ->
   returns (to_decimal_price
              (NilEmpty.string_of_uint handle
               ++ String "'" (String (digit_char d) "")))
           (inject_Z (Z.of_N (N.of_uint handle)) + inject_Z d / 32))
  /\ to_decimal_price (NilEmpty.string_of_uint handle ++ String "'" "")
     = Err ValueError.
Proof.
  intros Hh Hd. split.
  - intros Hb.
    rewrite (to_decimal_price_parts _ (NilEmpty.string_of_uint handle)
               (String (digit_char d) "") []).
    + rewrite (py_int_uint _ Hh), (single_digit_field _ Hd).
      cbn [bind fst snd]. rewrite (price_grid _ _ None) by lia.
      apply returns_grid; [cbn [frac_units]; lia|].
      rewrite grid_price_value. cbn [frac_value]. field.
    + apply split_one_sep; [apply sep_free_uint|].
      cbn [sep_free]. rewrite (digit_char_not_sep d Hd). reflexivity.
  - rewrite (to_decimal_price_parts _ (NilEmpty.string_of_uint handle) "" []).
    + rewrite (py_int_uint _ Hh). reflexivity.
    + apply split_one_sep; [apply sep_free_uint|reflexivity].
Qed.

Lemma short_tick_field_witness :
  Decimal.D9 (Decimal.D9 Decimal.Nil) <> Decimal.Nil
  /\ (0 <= 5 <= 9)%Z
  /\ (Z.of_N (N.of_uint (Decimal.D9 (Decimal.D9 Decimal.Nil))) < 2 ^ 46)%Z
  /\ returns (to_decimal_price "99'5") (99 + 5 / 32)
  /\ to_decimal_price "99'" = Err ValueError.
Proof.
  split; [discriminate|]. split; [lia|]. split; [reflexivity|].
  pose proof (short_tick_field (Decimal.D9 (Decimal.D9 Decimal.Nil)) 5%Z
                ltac:(discriminate) ltac:(lia)) as [H1 H2].
  exact (conj (H1 eq_refl) H2).
Defined.

(** X8: a minus sign before the handle is accepted by [int()], and the
    ticks and the fraction are then added to the negative handle, not
    taken off it: for a handle below 2^46 the price of
    [-handle'ticks[frac]] is -handle + ticks/32 + fraction/32. *)
Theorem negative_handle_price
  (handle : Decimal.uint) (ticks : Z) (f : option frac_code) :
  handle <> Decimal.Nil -> (Z.of_N (N.of_uint handle) < 2 ^ 46)%Z ->
  (0 <= ticks <= 31)%Z ->
  returns (to_decimal_price (String "-" (quote_token handle ticks f)))
          (- inject_Z (Z.of_N (N.of_uint handle))
           + inject_Z ticks / 32 + frac_value f / 32).
Proof.
  intros Hh Hb Ht. pose proof (frac_units_range f) as Hfr.
  assert (Hf : sep_free (frac_string f) = true)
    by (destruct f as [[]|]; reflexivity).
  pose proof (quote_token_split handle ticks (frac_string f) Ht Hf) as Hsp.
  rewrite (to_decimal_price_parts _
             (String "-" (NilEmpty.string_of_uint handle))
             (two_digits ticks ++ frac_string f) []).
  - rewrite (py_int_minus_uint _ Hh), (ticks_and_partial_well_formed _ _ Ht).
    cbn [bind fst snd]. rewrite price_grid by lia.
    apply returns_grid; [lia|].
    rewrite grid_price_value, inject_Z_opp. reflexivity.
  - unfold quote_token. cbn [split]. change (Ascii.eqb "-" "'") with false.
    cbv iota. rewrite Hsp. reflexivity.
Qed.

Lemma negative_handle_price_witness :
  Decimal.D9 (Decimal.D9 Decimal.Nil) <> Decimal.Nil
  /\ (Z.of_N (N.of_uint (Decimal.D9 (Decimal.D9 Decimal.Nil))) < 2 ^ 46)%Z
  /\ (0 <= 16 <= 31)%Z
  /\ returns (to_decimal_price "-99'16") (- (99) + 16 / 32 + 0 / 32).
Proof.
  split; [discriminate|]. split; [reflexivity|]. split; [lia|].
  exact (negative_handle_price (Decimal.D9 (Decimal.D9 Decimal.Nil)) 16%Z None
           ltac:(discriminate) ltac:(reflexivity) ltac:(lia)).
Defined.

Local Close Scope string_scope.

(** * Further properties of the builder *)

(** ** Exactly when the call returns *)

Lemma cashflows_matrix_returns_iff df q :
  (exists cf mt, cashflows_matrix df q = Ok (cf, mt))
  <-> exists N, max_semi_periods df q = Ok N /\ (1 <= N)%Z
        /\ Forall (fun lr =>
                     (- Z.of_nat (List.length df) < fst lr
                      <= Z.of_nat (List.length df))%Z
                     /\ (0 <= semi_periods (snd lr) <= N)%Z) df.
Proof.
  split.
  - intros [cf [mt H]]. exact (builder_needs df q cf mt H).
  - intros [N [HN [H1 Hall]]]. exact (builder_suffices df q N HN H1 Hall).
Qed.

(** X9: the call returns its two arrays exactly when the frame is not
    empty (the column count exists), the column count N is at least 1,
    every index label lies in -n+1 .. n for the n rows of the frame, and
    every security has a period count from 0 to N. In every other case it
    raises and returns nothing. *)
Theorem builder_returns_exactly (df : DataFrame) (quote_date : Z) :
  (exists cf mt, cashflows_matrix df quote_date = Ok (cf, mt))
  <-> exists N, max_semi_periods df quote_date = Ok N /\ (1 <= N)%Z
        /\ Forall (fun lr =>
                     (- Z.of_nat (List.length df) < fst lr
                      <= Z.of_nat (List.length df))%Z
                     /\ (0 <= semi_periods (snd lr) <= N)%Z) df.
Proof.
  split.
  - intros [cf [mt H]]. exact (builder_needs df quote_date cf mt H).
  - intros [N [HN [H1 Hall]]].
    exact (builder_suffices df quote_date N HN H1 Hall).
Qed.

Lemma builder_returns_exactly_witness :
  exists cf mt, cashflows_matrix batch_default_index quote_2017 = Ok (cf, mt).
Proof.
  apply (proj2 (builder_returns_exactly batch_default_index quote_2017)).
  exists 2%Z. split; [reflexivity|]. split; [lia|].
  repeat constructor; cbn; lia.
Defined.

(** ** The layout of the rows *)

Lemma skipn_repeat_gen {A : Type} (x : A) k n :
  skipn k (repeat x n) = repeat x (n - k).
Proof.
  revert k. induction n as [|n IH]; intros [|k]; cbn [repeat skipn Nat.sub];
    try reflexivity.
  apply IH.
Qed.

Lemma update_app_at {A : Type} (l1 l2 : list A) x f k :
  k = List.length l1 -> update (l1 ++ x :: l2) k f = l1 ++ f x :: l2.
Proof.
  intros ->. induction l1 as [|y l1 IH]; cbn; [reflexivity|]. now rewrite IH.
Qed.

Lemma repeat_split_at {A : Type} (x : A) k n :
  (k < n)%nat -> repeat x n = repeat x k ++ x :: repeat x (n - S k).
Proof.
  intros H. replace n with (k + S (n - S k))%nat at 1 by lia.
  rewrite repeat_app. reflexivity.
Qed.

Lemma cash_row_zeros s N :
  (1 <= semi_periods s <= Z.of_nat N)%Z ->
  cash_row s (repeat 0 N)
  = repeat (COUPON s / 2) (Z.to_nat (semi_periods s - 1))
    ++ [COUPON s / 2 + 100]
    ++ repeat 0 (N - Z.to_nat (semi_periods s)).
Proof.
  intros Hp. unfold cash_row.
  destruct (Z.eqb_spec (semi_periods s) 0); [lia|].
  rewrite skipn_repeat_gen.
  rewrite (repeat_split_at (COUPON s / 2) (Z.to_nat (semi_periods s - 1))
             (Z.to_nat (semi_periods s))) by lia.
  replace (Z.to_nat (semi_periods s) - S (Z.to_nat (semi_periods s - 1)))%nat
    with 0%nat by lia.
  cbn [repeat]. rewrite <- app_assoc. cbn [app].
  apply (update_app_at _ _ (COUPON s / 2) (fun x => x + 100)).
  now rewrite repeat_length.
Qed.

Lemma time_row_zeros s N :
  (1 <= semi_periods s <= Z.of_nat N)%Z ->
  time_row s (repeat 0 N)
  = times s ++ [MATURITY s] ++ repeat 0 (N - Z.to_nat (semi_periods s)).
Proof.
  intros Hp. unfold time_row.
  destruct (Z.eqb_spec (semi_periods s) 0); [lia|]. f_equal.
  rewrite (repeat_split_at 0 (Z.to_nat (semi_periods s - 1)) N) by lia.
  rewrite (update_app_at _ _ 0 (fun _ => MATURITY s))
    by now rewrite repeat_length.
  rewrite skipn_app, repeat_length, Nat.sub_diag, skipn_repeat_gen, Nat.sub_diag.
  cbn [repeat app skipn]. do 2 f_equal. lia.
Qed.

Lemma cumsum_from_repeat x m : forall acc j,
  (j < m)%nat ->
  nth j (cumsum_from acc (repeat x m)) 0
  == acc + inject_Z (Z.of_nat (S j)) * x.
Proof.
  induction m as [|m IH]; intros acc j Hj; [lia|].
  cbn [repeat cumsum_from]. destruct j as [|j]; cbn [nth].
  - change (inject_Z (Z.of_nat 1)) with 1. ring.
  - rewrite IH by lia. rewrite (Nat2Z.inj_succ (S j)). unfold Z.succ.
    rewrite inject_Z_plus. change (inject_Z 1) with 1. ring.
Qed.

Lemma cumsum_repeat x m j :
  (j < m)%nat ->
  nth j (cumsum (repeat x m)) 0 == inject_Z (Z.of_nat (S j)) * x.
Proof.
  intros Hj. destruct m as [|m]; [lia|]. cbn [repeat cumsum].
  destruct j as [|j]; cbn [nth].
  - change (inject_Z (Z.of_nat 1)) with 1. ring.
  - rewrite cumsum_from_repeat by lia. rewrite (Nat2Z.inj_succ (S j)).
    unfold Z.succ. rewrite inject_Z_plus. change (inject_Z 1) with 1. ring.
Qed.

Lemma times_nth s k :
  (k < Z.to_nat (semi_periods s - 1))%nat ->
  nth k (times s) 0
  == MATURITY s - (1 # 2) * inject_Z (semi_periods s - 1 - Z.of_nat k).
Proof.
  intros Hk. unfold times. set (m := Z.to_nat (semi_periods s - 1)) in *.
  rewrite (nth_indep _ 0 (MATURITY s - 0))
    by (rewrite length_map, length_rev, cumsum_length, length_map, repeat_length;
        exact Hk).
  rewrite (map_nth (fun x => MATURITY s - x)).
  rewrite rev_nth by (rewrite cumsum_length, length_map, repeat_length; exact Hk).
  rewrite cumsum_length, length_map, repeat_length, map_repeat.
  rewrite cumsum_repeat by lia.
  replace (Z.of_nat (S (m - S k))) with (semi_periods s - 1 - Z.of_nat k)%Z by lia.
  ring.
Qed.

Lemma rows_written df q cf mt N :
  cashflows_matrix df q = Ok (cf, mt) ->
  max_semi_periods df q = Ok N ->
  NoDup (rows_of (List.length df) df) ->
  forall i s, In (i, s) df ->
    (row_of (List.length df) i < List.length df)%nat
    /\ (0 <= semi_periods s <= N)%Z /\ (1 <= N)%Z
    /\ nth (row_of (List.length df) i) cf []
       = cash_row s (repeat 0 (Z.to_nat N))
    /\ nth (row_of (List.length df) i) mt []
       = time_row s (repeat 0 (Z.to_nat N)).
Proof.
  intros H HN Hnd i s Hin.
  destruct (cashflows_matrix_inv _ _ _ _ H) as [N' [HN' [_ Hit]]].
  rewrite HN in HN'. injection HN' as <-.
  destruct (iterrows_inv _ _ _ _ _ _ _ Hit
              (has_shape_zeros _ _) (has_shape_zeros _ _)) as [_ [_ [_ Hrows]]].
  destruct (Hrows Hnd i s Hin) as [Hlt [Hp [Hm [Hcf Hmt]]]].
  rewrite nth_repeat_lt in Hcf, Hmt by exact Hlt.
  repeat split; try assumption; lia.
Qed.

Lemma time_row_nth s N k :
  (1 <= semi_periods s <= Z.of_nat N)%Z -> (k < N)%nat ->
  ((Z.of_nat k < semi_periods s)%Z ->
   nth k (time_row s (repeat 0 N)) 0
   == MATURITY s - (1 # 2) * inject_Z (semi_periods s - 1 - Z.of_nat k))
  /\ ((semi_periods s <= Z.of_nat k)%Z ->
      nth k (time_row s (repeat 0 N)) 0 = 0).
Proof.
  intros Hp Hk. rewrite (time_row_zeros s N Hp).
  pose proof (times_length s) as Hlen. split; intros Hkp.
  - destruct (Nat.lt_ge_cases k (Z.to_nat (semi_periods s - 1))) as [Hlt|Hge].
    + rewrite app_nth1 by lia. apply times_nth, Hlt.
    + rewrite app_nth2 by lia.
      replace (k - List.length (times s))%nat with 0%nat by lia.
      cbn [app nth].
      replace (semi_periods s - 1 - Z.of_nat k)%Z with 0%Z by lia.
      change (inject_Z 0) with 0. ring.
  - rewrite app_nth2 by lia. rewrite app_nth2 by (cbn [List.length]; lia).
    apply nth_repeat.
Qed.

(** X10: in the cashflow array the call returns, the row of a security
    with p >= 1 periods holds the half coupon in its first p - 1 columns,
    the half coupon plus 100 in column p - 1 and zeros in the columns
    after it, provided no two securities are written to one row. *)
Theorem cashflow_row_layout
  (df : DataFrame) (quote_date : Z) (cf mt : matrix) (N : Z) :
  cashflows_matrix df quote_date = Ok (cf, mt) ->
  max_semi_periods df quote_date = Ok N ->
  NoDup (rows_of (List.length df) df) ->
  forall i s, In (i, s) df -> (1 <= semi_periods s)%Z ->
    nth (row_of (List.length df) i) cf []
    = repeat (COUPON s / 2) (Z.to_nat (semi_periods s - 1))
      ++ [COUPON s / 2 + 100]
      ++ repeat 0 (Z.to_nat N - Z.to_nat (semi_periods s)).
Proof.
  intros H HN Hnd i s Hin Hp.
  destruct (rows_written df quote_date cf mt N H HN Hnd i s Hin)
    as [_ [Hle [_ [-> _]]]].
  apply cash_row_zeros. lia.
Qed.

Lemma cashflow_row_layout_witness :
  In (1%Z, security_A) batch_from_one
  /\ (1 <= semi_periods security_A)%Z
  /\ nth (row_of (List.length batch_from_one) 1)
         [[4 # 2; 204 # 2]; [200 # 2; 0]] []
     = repeat (COUPON security_A / 2) (Z.to_nat (semi_periods security_A - 1))
       ++ [COUPON security_A / 2 + 100]
       ++ repeat 0 (Z.to_nat 2 - Z.to_nat (semi_periods security_A)).
Proof.
  assert (Hin : In (1%Z, security_A) batch_from_one) by (left; reflexivity).
  assert (Hp : (1 <= semi_periods security_A)%Z) by (vm_compute; discriminate).
  split; [exact Hin|]. split; [exact Hp|].
  exact (cashflow_row_layout batch_from_one quote_2017 _ _ 2%Z
           batch_from_one_run batch_from_one_columns batch_from_one_rows
           1%Z security_A Hin Hp).
Defined.

(** X11: in the maturity array the call returns, the row of a security
    with p >= 1 periods holds in column k < p the time to maturity less
    half a year for each later period, [MATURITY - 0.5 * (p - 1 - k)], so
    its column p - 1 holds the time to maturity itself, and 0 in every
    column from p on, provided no two securities are written to one
    row. *)
Theorem maturity_row_layout
  (df : DataFrame) (quote_date : Z) (cf mt : matrix) (N : Z) :
  cashflows_matrix df quote_date = Ok (cf, mt) ->
  max_semi_periods df quote_date = Ok N ->
  NoDup (rows_of (List.length df) df) ->
  forall i s, In (i, s) df -> (1 <= semi_periods s)%Z ->
  forall k, (k < Z.to_nat N)%nat ->
    ((Z.of_nat k < semi_periods s)%Z ->
     nth k (nth (row_of (List.length df) i) mt []) 0
     == MATURITY s - (1 # 2) * inject_Z (semi_periods s - 1 - Z.of_nat k))
    /\ ((semi_periods s <= Z.of_nat k)%Z ->
        nth k (nth (row_of (List.length df) i) mt []) 0 = 0).
Proof.
  intros H HN Hnd i s Hin Hp k Hk.
  destruct (rows_written df quote_date cf mt N H HN Hnd i s Hin)
    as [_ [Hle [_ [_ ->]]]].
  apply time_row_nth; lia.
Qed.

Lemma maturity_row_layout_witness :
  In (1%Z, security_A) batch_from_one
  /\ (1 <= semi_periods security_A)%Z
  /\ nth 0 (nth (row_of (List.length batch_from_one) 1)
               [[1 # 2; 1]; [1 # 4; 0]] []) 0
     == MATURITY security_A
        - (1 # 2) * inject_Z (semi_periods security_A - 1 - Z.of_nat 0).
Proof.
  assert (Hin : In (1%Z, security_A) batch_from_one) by (left; reflexivity).
  assert (Hp : (1 <= semi_periods security_A)%Z) by (vm_compute; discriminate).
  assert (Hk : (Z.of_nat 0 < semi_periods security_A)%Z)
    by (vm_compute; reflexivity).
  split; [exact Hin|]. split; [exact Hp|].
  exact (proj1 (maturity_row_layout batch_from_one quote_2017 _ _ 2%Z
                  batch_from_one_run batch_from_one_columns batch_from_one_rows
                  1%Z security_A Hin Hp 0%nat ltac:(cbn; lia)) Hk).
Defined.




(** ** Frames past their dates *)

(** X13: a frame with no security maturing later than six months before
    the quote date, the empty frame among them, makes the call raise
    ValueError: the maximum of an empty column is NaN, which [int]
    refuses, and a negative column count is refused by [np.zeros]. *)
Theorem stale_frame_raises (df : DataFrame) (quote_date : Z) :
  Forall (fun lr => (MATURITY_DATE (snd lr) - quote_date <= - SIX_MONTHS)%Z) df ->
  cashflows_matrix df quote_date = Err ValueError.
Proof.
  intros Hall. destruct df as [|lr0 df]; [reflexivity|].
  destruct (max_semi_periods_some (lr0 :: df) quote_date) as [N HN];
    [discriminate|].
  destruct (max_semi_periods_max _ _ _ HN) as [M [-> [[lr [Hin ->]] _]]].
  rewrite Forall_forall in Hall. specialize (Hall lr Hin).
  unfold cashflows_matrix. rewrite HN. cbn [bind]. unfold zeros.
  assert (Hneg : (Qceiling (inject_Z (MATURITY_DATE (snd lr) - quote_date)
                            / inject_Z SIX_MONTHS) <= -1)%Z).
  { change (-1)%Z with (Qceiling (inject_Z (-1))) at 1.
    apply Qceiling_resp_le, ratio_le_iff. lia. }
  match goal with
  | |- context [(?n <? 0)%Z] => destruct (Z.ltb_spec n 0); [reflexivity|lia]
  end.
Qed.

Lemma stale_frame_raises_witness :
  Forall (fun lr => (MATURITY_DATE (snd lr) - quote_2017 <= - SIX_MONTHS)%Z)
         [(0%Z, mkRow (quote_2017 - ONE_YEAR) (- (1)) 3)]
  /\ cashflows_matrix [(0%Z, mkRow (quote_2017 - ONE_YEAR) (- (1)) 3)] quote_2017
     = Err ValueError.
Proof.
  assert (H : Forall (fun lr => (MATURITY_DATE (snd lr) - quote_2017
                                 <= - SIX_MONTHS)%Z)
                [(0%Z, mkRow (quote_2017 - ONE_YEAR) (- (1)) 3)]).
  { repeat constructor. vm_compute. discriminate. }
  split; [exact H|].
  exact (stale_frame_raises _ quote_2017 H).
Defined.

(** ** Frames under a default index *)

Lemma in_combine_snd {A B : Type} (l : list A) : forall (l' : list B) y,
  List.length l = List.length l' -> In y l' -> exists x, In (x, y) (combine l l').
Proof.
  induction l as [|a l IH]; intros [|b l'] y Hlen Hin; cbn in *; try lia;
    try contradiction.
  destruct Hin as [->|Hin].
  - exists a. left. reflexivity.
  - destruct (IH l' y ltac:(lia) Hin) as [x Hx]. exists x. right. exact Hx.
Qed.

Lemma length_labelled b (rows : list Row) :
  List.length (combine (map Z.of_nat (seq b (List.length rows))) rows)
  = List.length rows.
Proof. rewrite length_combine, length_map, length_seq. lia. Qed.

Lemma in_labelled b (rows : list Row) i s :
  In (i, s) (combine (map Z.of_nat (seq b (List.length rows))) rows) ->
  In s rows
  /\ (Z.of_nat b <= i < Z.of_nat b + Z.of_nat (List.length rows))%Z.
Proof.
  intros H. split; [exact (in_combine_r _ _ _ _ H)|].
  apply in_combine_l, in_map_iff in H. destruct H as [k [<- Hk]].
  apply in_seq in Hk. lia.
Qed.

Lemma labelled_covers b (rows : list Row) s :
  In s rows ->
  exists i, In (i, s) (combine (map Z.of_nat (seq b (List.length rows))) rows).
Proof.
  apply in_combine_snd. now rewrite length_map, length_seq.
Qed.

(** ** The rows of the arrays and the labels of the frame *)

Lemma result_rows df q cf mt :
  cashflows_matrix df q = Ok (cf, mt) ->
  List.length cf = List.length df /\ List.length mt = List.length df.
Proof.
  intros H. destruct (cashflows_matrix_inv _ _ _ _ H) as [N [_ [_ Hit]]].
  destruct (iterrows_inv _ _ _ _ _ _ _ Hit
              (has_shape_zeros _ _) (has_shape_zeros _ _))
    as [[Hmt _] [[Hcf _] _]].
  split; assumption.
Qed.

Lemma max_semi_periods_rows df df' q :
  map snd df = map snd df' -> max_semi_periods df q = max_semi_periods df' q.
Proof.
  intros H. unfold max_semi_periods.
  rewrite <- (map_map snd (fun s => inject_Z (MATURITY_DATE s - q)
                                    / inject_Z SIX_MONTHS) df).
  rewrite <- (map_map snd (fun s => inject_Z (MATURITY_DATE s - q)
                                    / inject_Z SIX_MONTHS) df').
  now rewrite H.
Qed.

Lemma map_snd_combine_eq {A B : Type} (l : list A) : forall (l' : list B),
  List.length l = List.length l' -> map snd (combine l l') = l'.
Proof.
  induction l as [|a l IH]; intros [|b l'] H; cbn in *; try lia; try reflexivity.
  f_equal. apply IH. lia.
Qed.

Lemma map_fst_combine_eq {A B : Type} (l : list A) : forall (l' : list B),
  List.length l = List.length l' -> map fst (combine l l') = l.
Proof.
  induction l as [|a l IH]; intros [|b l'] H; cbn in *; try lia; try reflexivity.
  f_equal. apply IH. lia.
Qed.

Lemma nth_error_labelled (rows : list Row) : forall b k s,
  nth_error rows k = Some s ->
  In (Z.of_nat (b + k), s)
     (combine (map Z.of_nat (seq b (List.length rows))) rows).
Proof.
  induction rows as [|r rows IH]; intros b [|k] s H; cbn in H; try discriminate.
  - injection H as <-. left. now rewrite Nat.add_0_r.
  - right. rewrite <- Nat.add_succ_comm. apply (IH (S b) k s H).
Qed.

Lemma rows_of_index_from_one rows :
  rows_of (List.length rows) (with_index_from_one rows)
  = seq 0 (List.length rows).
Proof.
  unfold with_index_from_one.
  pose proof (rows_of_from_one
                (combine (map Z.of_nat (seq 1 (List.length rows))) rows) 0) as H.
  rewrite length_labelled in H. apply H; [|lia].
  apply map_fst_combine_eq. now rewrite length_map, length_seq.
Qed.

Lemma rows_of_default_index rows :
  NoDup (rows_of (List.length rows) (with_default_index rows)).
Proof.
  destruct rows as [|r rows]; [constructor|].
  unfold with_default_index. cbn [List.length seq map combine rows_of fst].
  pose proof (rows_of_from_one
                (combine (map Z.of_nat (seq 1 (List.length rows))) rows) 0) as H.
  rewrite length_labelled in H.
  fold (rows_of (S (List.length rows))
          (combine (map Z.of_nat (seq 1 (List.length rows))) rows)).
  rewrite (H (map_fst_combine_eq _ _ ltac:(now rewrite length_map, length_seq))
             (S (List.length rows)) ltac:(lia)).
  constructor; [|apply seq_NoDup].
  change (Z.of_nat 0) with 0%Z.
  rewrite (row_of_zero (S (List.length rows))) by lia.
  rewrite in_seq. lia.
Qed.

Lemma nth_tl {A : Type} (l : list A) k d : nth k (tl l) d = nth (S k) l d.
Proof. destruct l; [destruct k|]; reflexivity. Qed.

Lemma rotated_rows (a a0 : matrix) n :
  (1 <= n)%nat -> List.length a = n -> List.length a0 = n ->
  (forall r, (r < n)%nat ->
     nth r a0 [] = nth (if (S r =? n)%nat then 0%nat else S r) a []) ->
  a0 = tl a ++ firstn 1 a.
Proof.
  intros Hn Ha Ha0 Hrows.
  apply (nth_ext _ _ [] []).
  - rewrite length_app, length_tl, length_firstn. lia.
  - intros r Hr. rewrite Ha0 in Hr. rewrite (Hrows r Hr).
    destruct (Nat.eqb_spec (S r) n) as [He|He].
    + rewrite app_nth2 by (rewrite length_tl; lia).
      rewrite length_tl. replace (r - (List.length a - 1))%nat with 0%nat by lia.
      destruct a; [cbn in Ha; lia|reflexivity].
    + rewrite app_nth1 by (rewrite length_tl; lia). symmetry. apply nth_tl.
Qed.

(** X15: the index decides the rows. When the call returns the arrays
    [cf] and [mt] for rows labelled 1, 2, ..., where row k is the row of
    the security at position k, then for the same rows under the default
    index 0, 1, ... it returns these arrays turned by one row: the
    security at position 0 is in the last row and the security at position
    k >= 1 in row k - 1. *)
Theorem default_index_turns_rows
  (rows : list Row) (quote_date : Z) (cf mt : matrix) :
  cashflows_matrix (with_index_from_one rows) quote_date = Ok (cf, mt) ->
  cashflows_matrix (with_default_index rows) quote_date
  = Ok (tl cf ++ firstn 1 cf, tl mt ++ firstn 1 mt).
Proof.
  intros H1.
  assert (Hlen1 : List.length (with_index_from_one rows) = List.length rows)
    by apply length_labelled.
  assert (Hlen0 : List.length (with_default_index rows) = List.length rows)
    by apply length_labelled.
  destruct (cashflows_matrix_inv _ _ _ _ H1) as [N [HN1 _]].
  assert (HN0 : max_semi_periods (with_default_index rows) quote_date = Ok N).
  { rewrite <- HN1. apply max_semi_periods_rows.
    unfold with_default_index, with_index_from_one.
    rewrite !map_snd_combine_eq by (now rewrite length_map, length_seq).
    reflexivity. }
  assert (Hret : exists cf0 mt0,
             cashflows_matrix (with_default_index rows) quote_date = Ok (cf0, mt0)).
  { apply cashflows_matrix_returns_iff.
    destruct (proj1 (cashflows_matrix_returns_iff _ _)
                (ex_intro _ cf (ex_intro _ mt H1))) as [N' [HN' [HN1' Hall]]].
    rewrite HN1 in HN'. injection HN' as <-.
    exists N. split; [exact HN0|]. split; [exact HN1'|].
    rewrite Forall_forall in *. intros [i s] Hin. cbn [fst snd].
    rewrite Hlen0.
    destruct (in_labelled 0 rows i s Hin) as [Hs Hi].
    split; [lia|]. destruct (labelled_covers 1 rows s Hs) as [i' Hin'].
    apply (Hall (i', s) Hin'). }
  destruct Hret as [cf0 [mt0 H0]]. rewrite H0.
  assert (Hn : (1 <= List.length rows)%nat).
  { pose proof (max_semi_periods_nonempty _ _ _ HN1) as Hne.
    rewrite <- Hlen1. destruct (with_index_from_one rows); [congruence|cbn; lia]. }
  destruct (result_rows _ _ _ _ H1) as [Lcf Lmt].
  destruct (result_rows _ _ _ _ H0) as [Lcf0 Lmt0].
  rewrite Hlen1 in Lcf, Lmt. rewrite Hlen0 in Lcf0, Lmt0.
  assert (Hnd1 : NoDup (rows_of (List.length (with_index_from_one rows))
                          (with_index_from_one rows))).
  { rewrite Hlen1, rows_of_index_from_one. apply seq_NoDup. }
  assert (Hnd0 : NoDup (rows_of (List.length (with_default_index rows))
                          (with_default_index rows))).
  { rewrite Hlen0. apply rows_of_default_index. }
  assert (Hrows : forall r, (r < List.length rows)%nat ->
            nth r cf0 []
            = nth (if (S r =? List.length rows)%nat then 0%nat else S r) cf []
            /\ nth r mt0 []
               = nth (if (S r =? List.length rows)%nat then 0%nat else S r) mt []).
  { intros r Hr.
    set (k := if (S r =? List.length rows)%nat then 0%nat else S r).
    assert (Hk : (k < List.length rows)%nat).
    { unfold k. destruct (Nat.eqb_spec (S r) (List.length rows)); lia. }
    destruct (nth_error rows k) as [s|] eqn:Hs;
      [|apply nth_error_None in Hs; lia].
    pose proof (nth_error_labelled rows 0 k s Hs) as Hin0.
    pose proof (nth_error_labelled rows 1 k s Hs) as Hin1.
    destruct (rows_written _ quote_date cf0 mt0 N H0 HN0 Hnd0 _ _ Hin0)
      as [_ [_ [_ [Hc0 Hm0]]]].
    destruct (rows_written _ quote_date cf mt N H1 HN1 Hnd1 _ _ Hin1)
      as [_ [_ [_ [Hc1 Hm1]]]].
    rewrite Hlen0 in Hc0, Hm0. rewrite Hlen1 in Hc1, Hm1.
    assert (Hr0 : row_of (List.length rows) (Z.of_nat (0 + k)) = r).
    { unfold k. destruct (Nat.eqb_spec (S r) (List.length rows)).
      - change (Z.of_nat (0 + 0)) with 0%Z. rewrite row_of_zero by lia. lia.
      - rewrite row_of_from_one by lia. lia. }
    assert (Hr1 : row_of (List.length rows) (Z.of_nat (1 + k)) = k).
    { rewrite row_of_from_one by lia. lia. }
    rewrite Hr0 in Hc0, Hm0. rewrite Hr1 in Hc1, Hm1.
    rewrite Hc0, Hm0, Hc1, Hm1. split; reflexivity. }
  f_equal. f_equal.
  - apply (rotated_rows cf cf0 (List.length rows) Hn Lcf Lcf0).
    intros r Hr. apply (Hrows r Hr).
  - apply (rotated_rows mt mt0 (List.length rows) Hn Lmt Lmt0).
    intros r Hr. apply (Hrows r Hr).
Qed.

Lemma default_index_turns_rows_witness :
  cashflows_matrix (with_index_from_one [security_A; security_B]) quote_2017
  = Ok ([[4 # 2; 204 # 2]; [200 # 2; 0]], [[1 # 2; 1]; [1 # 4; 0]])
  /\ cashflows_matrix (with_default_index [security_A; security_B]) quote_2017
     = Ok ([[200 # 2; 0]; [4 # 2; 204 # 2]], [[1 # 4; 0]; [1 # 2; 1]]).
Proof.
  split; [exact batch_from_one_run|].
  exact (default_index_turns_rows [security_A; security_B] quote_2017 _ _
           batch_from_one_run).
Defined.

(** ** The order of the rows of the frame *)

Lemma row_of_lt n i : (0 < n)%nat -> (row_of n i < n)%nat.
Proof.
  intros H. unfold row_of.
  pose proof (Z.mod_pos_bound (i - 1) (Z.of_nat n)). lia.
Qed.

Lemma rows_cover df :
  NoDup (rows_of (List.length df) df) ->
  forall r, (r < List.length df)%nat ->
  exists i s, In (i, s) df /\ row_of (List.length df) i = r.
Proof.
  intros Hnd r Hr.
  assert (Hincl : incl (seq 0 (List.length df)) (rows_of (List.length df) df)).
  { apply NoDup_length_incl; [exact Hnd | |].
    - unfold rows_of. rewrite length_seq, length_map. lia.
    - intros k Hk. unfold rows_of in Hk. apply in_map_iff in Hk.
      destruct Hk as [[i s] [<- Hin]]. apply in_seq. cbn [fst].
      pose proof (row_of_lt (List.length df) i). lia. }
  assert (Hin : In r (rows_of (List.length df) df)) by (apply Hincl, in_seq; lia).
  unfold rows_of in Hin. apply in_map_iff in Hin.
  destruct Hin as [[i s] [Heq Hin]]. exists i, s. auto.
Qed.

Lemma max_semi_periods_perm df df' q N :
  Permutation df df' ->
  max_semi_periods df q = Ok N -> max_semi_periods df' q = Ok N.
Proof.
  intros Hperm HN.
  assert (Hne : df' <> []).
  { intros ->. apply Permutation_sym, Permutation_nil in Hperm. subst.
    exact (max_semi_periods_nonempty _ _ _ HN eq_refl). }
  destruct (max_semi_periods_some df' q Hne) as [N' HN']. rewrite HN'.
  destruct (max_semi_periods_max _ _ _ HN) as [M [-> [[lr [Hin ->]] Hub]]].
  destruct (max_semi_periods_max _ _ _ HN') as [M' [-> [[lr' [Hin' ->]] Hub']]].
  f_equal. apply Qceiling_comp. apply Qle_antisym.
  - apply Hub. apply (Permutation_in _ (Permutation_sym Hperm) Hin').
  - apply Hub'. apply (Permutation_in _ Hperm Hin).
Qed.

(** X16: the rows of the arrays do not depend on the order in which the
    frame lists its securities: when no two securities are written to one
    row and the call returns, it returns the same two arrays for every
    reordering of the frame that keeps each security's label. *)
Theorem frame_order_immaterial
  (df df' : DataFrame) (quote_date : Z) (cf mt : matrix) :
  Permutation df df' ->
  NoDup (rows_of (List.length df) df) ->
  cashflows_matrix df quote_date = Ok (cf, mt) ->
  cashflows_matrix df' quote_date = Ok (cf, mt).
Proof.
  intros Hperm Hnd H.
  pose proof (Permutation_length Hperm) as Hlen.
  destruct (cashflows_matrix_inv _ _ _ _ H) as [N [HN _]].
  pose proof (max_semi_periods_perm _ _ _ _ Hperm HN) as HN'.
  assert (Hret : exists cf' mt', cashflows_matrix df' quote_date = Ok (cf', mt')).
  { apply cashflows_matrix_returns_iff.
    destruct (proj1 (cashflows_matrix_returns_iff _ _)
                (ex_intro _ cf (ex_intro _ mt H))) as [N0 [HN0 [H1 Hall]]].
    rewrite HN in HN0. injection HN0 as <-.
    exists N. split; [exact HN'|]. split; [exact H1|].
    rewrite <- Hlen. rewrite Forall_forall in *. intros lr Hin.
    apply Hall. apply (Permutation_in _ (Permutation_sym Hperm) Hin). }
  destruct Hret as [cf' [mt' H']]. rewrite H'.
  assert (Hnd' : NoDup (rows_of (List.length df') df')).
  { rewrite <- Hlen. unfold rows_of.
    apply (Permutation_NoDup (Permutation_map _ Hperm) Hnd). }
  destruct (result_rows _ _ _ _ H) as [Lcf Lmt].
  destruct (result_rows _ _ _ _ H') as [Lcf' Lmt'].
  assert (Hrows : forall r, (r < List.length df)%nat ->
            nth r cf' [] = nth r cf [] /\ nth r mt' [] = nth r mt []).
  { intros r Hr. destruct (rows_cover df Hnd r Hr) as [i [s [Hin <-]]].
    destruct (rows_written _ quote_date cf mt N H HN Hnd i s Hin)
      as [_ [_ [_ [Hc Hm]]]].
    destruct (rows_written _ quote_date cf' mt' N H' HN' Hnd' i s
                (Permutation_in _ Hperm Hin)) as [_ [_ [_ [Hc' Hm']]]].
    rewrite <- Hlen in Hc', Hm'. rewrite Hc, Hm, Hc', Hm'. split; reflexivity. }
  f_equal. f_equal.
  - apply (nth_ext _ _ [] []); [lia|].
    intros r Hr. apply Hrows. lia.
  - apply (nth_ext _ _ [] []); [lia|].
    intros r Hr. apply Hrows. lia.
Qed.

Lemma frame_order_immaterial_witness :
  Permutation batch_from_one [(2%Z, security_B); (1%Z, security_A)]
  /\ NoDup (rows_of (List.length batch_from_one) batch_from_one)
  /\ cashflows_matrix [(2%Z, security_B); (1%Z, security_A)] quote_2017
     = Ok ([[4 # 2; 204 # 2]; [200 # 2; 0]], [[1 # 2; 1]; [1 # 4; 0]]).
Proof.
  assert (Hperm : Permutation batch_from_one
                    [(2%Z, security_B); (1%Z, security_A)])
    by apply perm_swap.
  split; [exact Hperm|]. split; [exact batch_from_one_rows|].
  exact (frame_order_immaterial batch_from_one _ quote_2017 _ _
           Hperm batch_from_one_rows batch_from_one_run).
Defined.
